(** * Personal Library Manager: the catalog store and its backing file

    A shallow embedding of [personal_library_manager.py]: the [Book]
    record, the [LibraryManager] methods ([load_library],
    [save_library], [add_book], [remove_book], [search_books],
    [list_books], [update_book_status]), the part of Python's [json]
    module that the store goes through when it writes and reads the
    backing file, the menu loop of [main] and the lines of the script
    that follow it.

    How the program is modelled:
    - a [str] is the list of its code points, an [int] is a [Z];
    - a method takes the manager and the world and returns both; the
      world holds the files, the clock and the trace of what was
      printed and written, so that a method that returns the world it
      was given has printed and written nothing;
    - [json.dump] and [json.load] are modelled by an encoder and a
      decoder written after the library's own ([py_encode_basestring_ascii],
      [_make_iterencode], [py_scanstring], [JSONObject], [JSONArray],
      [scan_once]), on the text of the file as [open] decodes it;
    - [str.lower] is a parameter of [search_books]; [ascii_lower] is
      its instance for ASCII text;
    - the shell runs in a state and error monad over the manager, the
      world and the lines that standard input holds; [input] takes the
      next line or raises [EOFError], and [int] is a parameter, with
      [ascii_int] its instance for signed ASCII digits.

    Left out: failures of the file system (a path is a regular file or
    nothing, and reading and writing succeed), the interpreter's limits
    on recursion depth and on the number of digits of an [int], and
    signals at the keyboard.  The records of a catalog are distinct objects
    (the program never puts one object into the list twice), so a
    record is modelled by its value. *)

From Stdlib Require Import NArith ZArith List Lia String Ascii.
From Stdlib Require Import DecimalFacts DecimalPos DecimalN DecimalZ.
From stdpp Require Import base decidable option list gmap.

Local Open Scope N_scope.

(** ** Python text

    A Python [str] is a sequence of code points; a code point is a
    number below [0x110000], surrogates (0xD800-0xDFFF) included. *)

Abbreviation str := (list N).

Definition u (s : string) : str := map N_of_ascii (list_ascii_of_string s).
Arguments u s%_string.

Definition is_codepoint (c : N) : Prop := c < 0x110000.
Definition is_str (s : str) : Prop := Forall is_codepoint s.

Definition is_high_surrogate (c : N) : bool := (0xd800 <=? c) && (c <=? 0xdbff).
Definition is_low_surrogate (c : N) : bool := (0xdc00 <=? c) && (c <=? 0xdfff).

(** No high surrogate with a low surrogate right after it: the two
    would read as one code point of a supplementary plane. *)
Fixpoint no_surrogate_pair (s : str) : bool :=
  match s with
  | a :: r =>
      match r with
      | b :: _ => negb (is_high_surrogate a && is_low_surrogate b)
      | [] => true
      end && no_surrogate_pair r
  | [] => true
  end.

(** [a in b] on two [str] values: [a] occurs in [b] as a contiguous run. *)
Fixpoint startswith (b a : str) {struct a} : bool :=
  match a, b with
  | [], _ => true
  | _ :: _, [] => false
  | x :: a', y :: b' => (x =? y) && startswith b' a'
  end.

Fixpoint str_in (a b : str) : bool :=
  startswith b a ||
  match b with
  | [] => false
  | _ :: b' => str_in a b'
  end.

(** [str.lower] restricted to what it does on ASCII text: the letters
    A-Z move to a-z, every other code point stays.  The catalog
    operations below take the lowering function as a parameter; this is
    the instance used on ASCII examples. *)
Definition ascii_lower_cp (c : N) : N :=
  if (65 <=? c) && (c <=? 90) then c + 32 else c.
Definition ascii_lower (s : str) : str := map ascii_lower_cp s.

(** ** The [json] module, as far as the store uses it *)

Module Json.

(** What [json.load] can return and [json.dump] can take.  A float is
    kept as the lexeme it was read from: no operation of the store looks
    inside one.  An object is a [dict]: keys are unique and keep the
    order of their first insertion. *)
#[warnings="-register-all"] Inductive json : Type :=
| JNull
| JBool (b : bool)
| JInt (z : Z)
| JFloat (lexeme : str)
| JStr (s : str)
| JArr (vs : list json)
| JObj (d : list (str * json)).

(** Code points that the encoder and the decoder name by number:
    8 backspace, 9 tab, 10 line feed, 12 form feed, 13 carriage return,
    32 space, 34 double quote, 43 plus, 44 comma, 45 minus, 46 dot,
    47 slash, 48 to 57 the digits, 58 colon, 65 to 70 A to F, 69 E,
    91 and 93 the square brackets, 92 backslash, 97 to 102 a to f,
    98 b, 101 e, 102 f, 110 n, 114 r, 116 t, 117 u, 123 and 125 the
    braces. *)

(** *** Encoding: [json.dump(obj, f, indent=4)] *)

(** [format(n, 'x')] for one hexadecimal digit. *)
Definition hex_digit (n : N) : N := if n <? 10 then 48 + n else 87 + n.

(** ['\\u{0:04x}'.format(n)] for [n < 0x10000]. *)
Definition u_escape (n : N) : str :=
  [92; 117; hex_digit (n / 4096 mod 16); hex_digit (n / 256 mod 16);
   hex_digit (n / 16 mod 16); hex_digit (n mod 16)].

(** The replacement [py_encode_basestring_ascii] makes for one code
    point: the short escapes of [ESCAPE_DCT], printable ASCII as it is,
    [\uXXXX] for the rest of the basic plane and a surrogate pair of
    two escapes above it. *)
Definition escape_cp (c : N) : str :=
  if c =? 34 then [92; 34]
  else if c =? 92 then [92; 92]
  else if c =? 10 then [92; 110]
  else if c =? 13 then [92; 114]
  else if c =? 9 then [92; 116]
  else if c =? 8 then [92; 98]
  else if c =? 12 then [92; 102]
  else if (32 <=? c) && (c <=? 126) then [c]
  else if c <? 0x10000 then u_escape c
  else
    let n := c - 0x10000 in
    u_escape (N.lor 0xd800 (N.land (N.shiftr n 10) 0x3ff)) ++
    u_escape (N.lor 0xdc00 (N.land n 0x3ff)).

Definition encode_basestring_ascii (s : str) : str :=
  34 :: flat_map escape_cp s ++ [34].

(** [int.__repr__]: decimal digits, a leading minus sign for negatives. *)
Fixpoint uint_chars (d : Decimal.uint) : str :=
  match d with
  | Decimal.Nil => []
  | Decimal.D0 d => 48 :: uint_chars d
  | Decimal.D1 d => 49 :: uint_chars d
  | Decimal.D2 d => 50 :: uint_chars d
  | Decimal.D3 d => 51 :: uint_chars d
  | Decimal.D4 d => 52 :: uint_chars d
  | Decimal.D5 d => 53 :: uint_chars d
  | Decimal.D6 d => 54 :: uint_chars d
  | Decimal.D7 d => 55 :: uint_chars d
  | Decimal.D8 d => 56 :: uint_chars d
  | Decimal.D9 d => 57 :: uint_chars d
  end.

Definition int_repr (z : Z) : str :=
  match Z.to_int z with
  | Decimal.Pos d => uint_chars d
  | Decimal.Neg d => 45 :: uint_chars d
  end.

(** A line break followed by the indentation of nesting [level]. *)
Definition newline_indent (indent level : nat) : str :=
  10 :: repeat 32 (indent * level)%nat.

(** The layout [_iterencode_list] and [_iterencode_dict] share: nothing
    between the brackets of an empty container; otherwise one item per
    line, a comma after every item but the last. *)
Definition encode_items (opening closing : N) (indent level : nat)
    (items : list str) : str :=
  match items with
  | [] => [opening; closing]
  | i0 :: rest =>
      opening :: newline_indent indent (S level) ++ i0 ++
      flat_map (fun i => 44 :: newline_indent indent (S level) ++ i) rest ++
      newline_indent indent level ++ [closing]
  end.

Fixpoint iterencode (indent level : nat) (v : json) : str :=
  match v with
  | JNull => u "null"
  | JBool true => u "true"
  | JBool false => u "false"
  | JInt z => int_repr z
  | JFloat x => x
  | JStr s => encode_basestring_ascii s
  | JArr vs =>
      encode_items 91 93 indent level (map (iterencode indent (S level)) vs)
  | JObj d =>
      encode_items 123 125 indent level
        (map (fun kv => encode_basestring_ascii (fst kv) ++ [58; 32] ++
                        iterencode indent (S level) (snd kv)) d)
  end.

Definition dumps (indent : nat) (v : json) : str := iterencode indent 0 v.

(** *** Decoding: [json.load]

    [Parsed v rest]: a value was read and [rest] is the text after it.
    [DecodeError] is [json.JSONDecodeError]; its message and position
    are left out.  [OutOfFuel] is an artefact of the recursion scheme:
    [loads_fuel_enough] shows that [loads] never produces it. *)
Inductive parse (A : Type) : Type :=
| Parsed (a : A) (rest : str)
| DecodeError
| OutOfFuel.
Arguments Parsed {A} a rest.
Arguments DecodeError {A}.
Arguments OutOfFuel {A}.

(** [WHITESPACE]: space, tab, line feed, carriage return. *)
Definition is_ws (c : N) : bool :=
  (c =? 32) || (c =? 9) || (c =? 10) || (c =? 13).

Fixpoint skip_ws (s : str) : str :=
  match s with
  | c :: r => if is_ws c then skip_ws r else s
  | [] => []
  end.

Definition is_digit (c : N) : bool := (48 <=? c) && (c <=? 57).

Definition hex_value (c : N) : option N :=
  if is_digit c then Some (c - 48)
  else if (97 <=? c) && (c <=? 102) then Some (c - 87)
  else if (65 <=? c) && (c <=? 70) then Some (c - 55)
  else None.

(** [_decode_uXXXX]: four hexadecimal digits, or a decode error. *)
Definition decode_uXXXX (a b c d : N) : option N :=
  match hex_value a, hex_value b, hex_value c, hex_value d with
  | Some x3, Some x2, Some x1, Some x0 => Some (((x3 * 16 + x2) * 16 + x1) * 16 + x0)
  | _, _, _, _ => None
  end.

(** The table [BACKSLASH] of one-letter escapes. *)
Definition BACKSLASH (e : N) : option N :=
  if e =? 34 then Some 34
  else if e =? 92 then Some 92
  else if e =? 47 then Some 47
  else if e =? 98 then Some 8
  else if e =? 102 then Some 12
  else if e =? 110 then Some 10
  else if e =? 114 then Some 13
  else if e =? 116 then Some 9
  else None.

Definition push (c : N) (o : option (str * str)) : option (str * str) :=
  match o with
  | Some (x, rest) => Some (c :: x, rest)
  | None => None
  end.

(** [py_scanstring] in strict mode, started just after the opening
    quote: the decoded text and what follows the closing quote; [None]
    is a decode error.  A [\uXXXX] escape of a high surrogate that is
    followed by the escape of a low surrogate yields the one code point
    the pair stands for. *)
Fixpoint scanstring (s : str) : option (str * str) :=
  match s with
  | [] => None
  | c :: r =>
      if c =? 34 then Some ([], r)
      else if c =? 92 then
        match r with
        | [] => None
        | e :: r1 =>
            if e =? 117 then
              match r1 with
              | h1 :: h2 :: h3 :: h4 :: r2 =>
                  match decode_uXXXX h1 h2 h3 h4 with
                  | None => None
                  | Some uni =>
                      match r2 with
                      | b :: e2 :: r2' =>
                          if is_high_surrogate uni && (b =? 92) && (e2 =? 117) then
                            match r2' with
                            | k1 :: k2 :: k3 :: k4 :: r3 =>
                                match decode_uXXXX k1 k2 k3 k4 with
                                | None => None
                                | Some uni2 =>
                                    if is_low_surrogate uni2 then
                                      push (0x10000 + N.lor (N.shiftl (uni - 0xd800) 10)
                                                            (uni2 - 0xdc00))
                                           (scanstring r3)
                                    else push uni (scanstring r2)
                                end
                            | _ => None
                            end
                          else push uni (scanstring r2)
                      | _ => push uni (scanstring r2)
                      end
                  end
              | _ => None
              end
            else
              match BACKSLASH e with
              | Some ch => push ch (scanstring r1)
              | None => None
              end
        end
      else if c <? 32 then None
      else push c (scanstring r)
  end.

(** Numbers, as [NUMBER_RE] matches them: an optional minus sign, then
    either a single 0 or a digit 1-9 followed by digits; optionally a
    dot with at least one digit; optionally e or E, an optional sign
    and at least one digit.  The match is the longest one. *)
Fixpoint read_digits (s : str) : str * str :=
  match s with
  | c :: r =>
      if is_digit c then let (ds, rest) := read_digits r in (c :: ds, rest)
      else ([], s)
  | [] => ([], [])
  end.

Fixpoint uint_of_chars (ds : str) : Decimal.uint :=
  match ds with
  | [] => Decimal.Nil
  | c :: r =>
      let d := uint_of_chars r in
      if c =? 48 then Decimal.D0 d
      else if c =? 49 then Decimal.D1 d
      else if c =? 50 then Decimal.D2 d
      else if c =? 51 then Decimal.D3 d
      else if c =? 52 then Decimal.D4 d
      else if c =? 53 then Decimal.D5 d
      else if c =? 54 then Decimal.D6 d
      else if c =? 55 then Decimal.D7 d
      else if c =? 56 then Decimal.D8 d
      else Decimal.D9 d
  end.

Definition match_integer (s : str) : option (str * str) :=
  match s with
  | c :: r =>
      if c =? 48 then Some ([48], r)
      else if is_digit c then Some (read_digits s)
      else None
  | [] => None
  end.

Definition match_frac (s : str) : str * str :=
  match s with
  | c :: r =>
      if c =? 46 then
        match read_digits r with
        | ([], _) => ([], s)
        | (ds, rest) => (c :: ds, rest)
        end
      else ([], s)
  | [] => ([], s)
  end.

Definition match_exp (s : str) : str * str :=
  match s with
  | c :: r =>
      if (c =? 101) || (c =? 69) then
        let (sign, r') :=
          match r with
          | x :: r' => if (x =? 45) || (x =? 43) then ([x], r') else ([], r)
          | [] => ([], r)
          end in
        match read_digits r' with
        | ([], _) => ([], s)
        | (ds, rest) => (c :: sign ++ ds, rest)
        end
      else ([], s)
  | [] => ([], s)
  end.

(** A match without fraction and exponent goes through [int]; any other
    match is a float. *)
Definition match_number (s : str) : option (json * str) :=
  let (negative, s1) :=
    match s with
    | c :: r => if c =? 45 then (true, r) else (false, s)
    | [] => (false, s)
    end in
  match match_integer s1 with
  | None => None
  | Some (ds, s2) =>
      let (frac, s3) := match_frac s2 in
      let (exp, s4) := match_exp s3 in
      match frac, exp with
      | [], [] =>
          let d := uint_of_chars ds in
          Some (JInt (Z.of_int (if negative then Decimal.Neg d else Decimal.Pos d)), s4)
      | _, _ =>
          Some (JFloat ((if negative then [45] else []) ++ ds ++ frac ++ exp), s4)
      end
  end.

(** [d[k] = v] on a [dict] kept as a list of its items. *)
Fixpoint dict_set (k : str) (v : json) (d : list (str * json)) : list (str * json) :=
  match d with
  | [] => [(k, v)]
  | (k', v') :: d' =>
      if bool_decide (k' = k) then (k, v) :: d' else (k', v') :: dict_set k v d'
  end.

(** [dict(pairs)]: a later pair with the same key replaces the value. *)
Definition dict (pairs : list (str * json)) : list (str * json) :=
  fold_left (fun d kv => dict_set (fst kv) (snd kv) d) pairs [].

(** [scan_once], with [JSONObject] and [JSONArray]: [members] reads the
    pairs of an object from just after the opening quote of a key,
    [elements] the values of an array from the start of a value. *)
Fixpoint scan_once (fuel : nat) (s : str) {struct fuel} : parse json :=
  match fuel with
  | O => OutOfFuel
  | S fuel =>
      match s with
      | [] => DecodeError
      | c :: r =>
          if c =? 34 then
            match scanstring r with
            | Some (x, rest) => Parsed (JStr x) rest
            | None => DecodeError
            end
          else if c =? 123 then
            match skip_ws r with
            | c1 :: r1 =>
                if c1 =? 125 then Parsed (JObj []) r1
                else if c1 =? 34 then
                  match members fuel r1 with
                  | Parsed pairs rest => Parsed (JObj (dict pairs)) rest
                  | DecodeError => DecodeError
                  | OutOfFuel => OutOfFuel
                  end
                else DecodeError
            | [] => DecodeError
            end
          else if c =? 91 then
            match skip_ws r with
            | c1 :: r1 =>
                if c1 =? 93 then Parsed (JArr []) r1
                else
                  match elements fuel (c1 :: r1) with
                  | Parsed vs rest => Parsed (JArr vs) rest
                  | DecodeError => DecodeError
                  | OutOfFuel => OutOfFuel
                  end
            | [] => DecodeError
            end
          else if startswith s (u "null") then Parsed JNull (drop 4 s)
          else if startswith s (u "true") then Parsed (JBool true) (drop 4 s)
          else if startswith s (u "false") then Parsed (JBool false) (drop 5 s)
          else
            match match_number s with
            | Some (v, rest) => Parsed v rest
            | None =>
                if startswith s (u "NaN") then Parsed (JFloat (u "NaN")) (drop 3 s)
                else if startswith s (u "Infinity") then
                  Parsed (JFloat (u "Infinity")) (drop 8 s)
                else if startswith s (u "-Infinity") then
                  Parsed (JFloat (u "-Infinity")) (drop 9 s)
                else DecodeError
            end
      end
  end

with members (fuel : nat) (s : str) {struct fuel} : parse (list (str * json)) :=
  match fuel with
  | O => OutOfFuel
  | S fuel =>
      match scanstring s with
      | None => DecodeError
      | Some (key, s1) =>
          match skip_ws s1 with
          | c :: s2 =>
              if c =? 58 then
                match scan_once fuel (skip_ws s2) with
                | Parsed v s3 =>
                    match skip_ws s3 with
                    | c' :: s4 =>
                        if c' =? 125 then Parsed [(key, v)] s4
                        else if c' =? 44 then
                          match skip_ws s4 with
                          | q :: s5 =>
                              if q =? 34 then
                                match members fuel s5 with
                                | Parsed pairs rest => Parsed ((key, v) :: pairs) rest
                                | DecodeError => DecodeError
                                | OutOfFuel => OutOfFuel
                                end
                              else DecodeError
                          | [] => DecodeError
                          end
                        else DecodeError
                    | [] => DecodeError
                    end
                | DecodeError => DecodeError
                | OutOfFuel => OutOfFuel
                end
              else DecodeError
          | [] => DecodeError
          end
      end
  end

with elements (fuel : nat) (s : str) {struct fuel} : parse (list json) :=
  match fuel with
  | O => OutOfFuel
  | S fuel =>
      match scan_once fuel s with
      | Parsed v s1 =>
          match skip_ws s1 with
          | c :: s2 =>
              if c =? 93 then Parsed [v] s2
              else if c =? 44 then
                match elements fuel (skip_ws s2) with
                | Parsed vs rest => Parsed (v :: vs) rest
                | DecodeError => DecodeError
                | OutOfFuel => OutOfFuel
                end
              else DecodeError
          | [] => DecodeError
          end
      | DecodeError => DecodeError
      | OutOfFuel => OutOfFuel
      end
  end.

(** [json.loads]: one value, white space allowed around it, nothing
    else after it. *)
Definition loads_fuel (s : str) : nat := (2 * length s + 2)%nat.

Definition loads (s : str) : parse json :=
  match scan_once (loads_fuel s) (skip_ws s) with
  | Parsed v rest =>
      match skip_ws rest with
      | [] => Parsed v []
      | _ :: _ => DecodeError
      end
  | DecodeError => DecodeError
  | OutOfFuel => OutOfFuel
  end.

End Json.

Import Json.

(** ** Notions used to reason about the decoder *)

(** What the decoder looks at after the escape of a high surrogate:
    should an escape follow, it is not the escape of a low surrogate. *)
Definition lookahead_ok (T : str) : Prop :=
  match T with
  | b :: e2 :: r2' =>
      (b =? 92) && (e2 =? 117) = true ->
      exists k1 k2 k3 k4 r3 uni2,
        r2' = k1 :: k2 :: k3 :: k4 :: r3 /\
        decode_uXXXX k1 k2 k3 k4 = Some uni2 /\
        is_low_surrogate uni2 = false
  | _ => True
  end.

(** The shapes of [escape_cp c]. *)
Inductive escape_shape (c : N) : str -> Prop :=
| shape_short e : e <> 117 -> BACKSLASH e = Some c -> escape_shape c [92; e]
| shape_plain : c <> 34 -> c <> 92 -> 32 <= c -> escape_shape c [c]
| shape_u : c < 0x10000 -> escape_shape c (u_escape c)
| shape_pair :
    0x10000 <= c < 0x110000 ->
    escape_shape c
      (u_escape (N.lor 0xd800 (N.land (N.shiftr (c - 0x10000) 10) 0x3ff)) ++
       u_escape (N.lor 0xdc00 (N.land (c - 0x10000) 0x3ff))).

(** Where the match of a number stops: at the end of the text or before
    a character that cannot continue a number. *)
Definition number_end (rest : str) : Prop :=
  match rest with
  | [] => True
  | c :: _ => is_digit c = false /\ c <> 46 /\ c <> 101 /\ c <> 69
  end.

(** [scans_back fuel level v]: given at least [fuel], the decoder reads
    the encoding of [v] at nesting [level] back as [v] and stops right
    after it, whatever follows that ends a number. *)
Definition scans_back (fuel level : nat) (v : json) : Prop :=
  forall f rest, (fuel <= f)%nat -> number_end rest ->
    scan_once f (iterencode 4 level v ++ rest) = Parsed v rest.

(** What [encode_items] writes after the first item. *)
Definition more_items (closing : N) (indent level : nat) (items : list str) : str :=
  flat_map (fun i => 44 :: newline_indent indent (S level) ++ i) items ++
  newline_indent indent level ++ [closing].

(** The text of one pair of an object. *)
Definition encode_pair (indent level : nat) (kv : str * json) : str :=
  encode_basestring_ascii (fst kv) ++ [58; 32] ++
  iterencode indent (S level) (snd kv).

(** A key that the encoder and the decoder agree on, with a value that
    scans back. *)
Definition pair_ok (F level : nat) (kv : str * json) : Prop :=
  is_str (fst kv) /\ no_surrogate_pair (fst kv) = true /\
  scans_back F (S level) (snd kv).

(** ** The world outside the store

    The backing files, what was printed and written so far (oldest
    first), and the clock.  A path names a regular file or nothing;
    reading and writing a file do not fail. *)

Inductive event : Type :=
| Print (line : str)
| Write (path content : str).

Record datetime : Type := { year : N; month : N; day : N }.

Record World : Type := {
  fs : gmap (list N) (list N);
  events : list event;
  now : datetime
}.

Definition print (line : str) (w : World) : World :=
  {| fs := fs w; events := events w ++ [Print line]; now := now w |}.

(** [open(path, 'w')] followed by writing [content] and closing. *)
Definition write_file (path content : str) (w : World) : World :=
  {| fs := <[path := content]> (fs w);
     events := events w ++ [Write path content];
     now := now w |}.

(** [datetime.now().strftime("%Y-%m-%d")]: year, month and day in
    decimal, padded with zeros to four, two and two digits. *)
Definition decimal (n : N) : str := uint_chars (N.to_uint n).

Definition zfill (width : nat) (s : str) : str :=
  repeat 48 (width - length s)%nat ++ s.

Definition strftime_Ymd (t : datetime) : str :=
  zfill 4 (decimal (year t)) ++ [45] ++
  zfill 2 (decimal (month t)) ++ [45] ++
  zfill 2 (decimal (day t)).

(** The dates a clock shows.  From year 1000 on the four digits of the
    year need no padding, which below 1000 is left to the platform. *)
Definition valid_clock (t : datetime) : Prop :=
  (1000 <= year t <= 9999) /\ (1 <= month t <= 12) /\ (1 <= day t <= 31).

Definition all_digits (width : nat) (s : str) : bool :=
  (length s =? width)%nat && forallb is_digit s.

(** The form YYYY-MM-DD: ten characters, digits but for the two dashes. *)
Definition is_Ymd (s : str) : bool :=
  all_digits 4 (take 4 s) && bool_decide (s !! 4%nat = Some 45) &&
  all_digits 2 (take 2 (drop 5 s)) && bool_decide (s !! 7%nat = Some 45) &&
  all_digits 2 (drop 8 s).

(** ** The catalog *)

Record Book : Type := {
  title : str;
  author : str;
  isbn : str;
  genre : str;
  year_published : Z;
  date_added : str;
  status : str
}.

#[global] Instance Book_eq_dec : EqDecision Book.
Proof. solve_decision. Defined.

Record LibraryManager : Type := {
  data_file : str;
  books : list Book
}.

Definition with_books (m : LibraryManager) (bs : list Book) : LibraryManager :=
  {| data_file := data_file m; books := bs |}.

Definition with_status (b : Book) (s : str) : Book :=
  {| title := title b; author := author b; isbn := isbn b; genre := genre b;
     year_published := year_published b; date_added := date_added b;
     status := s |}.

(** [book.__dict__]: the seven fields in the order [__init__] sets them. *)
Definition Book_dict (b : Book) : list (str * json) :=
  [ (u "title", JStr (title b));
    (u "author", JStr (author b));
    (u "isbn", JStr (isbn b));
    (u "genre", JStr (genre b));
    (u "year_published", JInt (year_published b));
    (u "date_added", JStr (date_added b));
    (u "status", JStr (status b)) ].

Definition field_names : list str :=
  [ u "title"; u "author"; u "isbn"; u "genre"; u "year_published";
    u "date_added"; u "status" ].

(** How a run of [load_library] can end.  [Raised]: an exception left
    the method.  [Untyped]: Python goes on with a record one of whose
    fields holds a value outside its declared type ([str], [int]; a
    [bool] is taken to be outside [int]); such a record has no
    counterpart in [Book].  [Unfinished]: the decoder
    ran out of fuel, which [loads_fuel_enough] excludes. *)
Inductive exn : Type := TypeError.

Inductive outcome (A : Type) : Type :=
| Done (a : A)
| Raised (e : exn)
| Untyped
| Unfinished.
Arguments Done {A} a.
Arguments Raised {A} e.
Arguments Untyped {A}.
Arguments Unfinished {A}.

Definition dict_get (k : str) (d : list (str * json)) : option json :=
  snd <$> List.find (fun kv => bool_decide (fst kv = k)) d.

Definition get_str (k : str) (d : list (str * json)) : option str :=
  match dict_get k d with
  | Some (JStr s) => Some s
  | _ => None
  end.

Definition get_int (k : str) (d : list (str * json)) : option Z :=
  match dict_get k d with
  | Some (JInt z) => Some z
  | _ => None
  end.

(** [Book] called with the items of [d] as keyword arguments: a
    [TypeError] unless the keys of [d] are exactly the seven field
    names. *)
Definition kwargs_ok (d : list (str * json)) : bool :=
  forallb (fun k => bool_decide (k ∈ field_names)) (map fst d) &&
  forallb (fun f => bool_decide (f ∈ map fst d)) field_names.

Definition Book_of_kwargs (d : list (str * json)) : outcome Book :=
  if kwargs_ok d then
    match get_str (u "title") d, get_str (u "author") d, get_str (u "isbn") d,
          get_str (u "genre") d, get_int (u "year_published") d,
          get_str (u "date_added") d, get_str (u "status") d with
    | Some t, Some a, Some i, Some g, Some y, Some da, Some st =>
        Done {| title := t; author := a; isbn := i; genre := g;
                year_published := y; date_added := da; status := st |}
    | _, _, _, _, _, _, _ => Untyped
    end
  else Raised TypeError.

(** The same for any decoded value: only a [dict] can be unpacked into
    keyword arguments. *)
Definition Book_of (item : json) : outcome Book :=
  match item with
  | JObj d => Book_of_kwargs d
  | _ => Raised TypeError
  end.

(** [for book in data]: a list yields its elements, a [dict] its keys,
    a [str] its characters; nothing else is iterable. *)
Definition iter (data : json) : option (list json) :=
  match data with
  | JArr vs => Some vs
  | JObj d => Some (map (fun kv => JStr (fst kv)) d)
  | JStr s => Some (map (fun c => JStr [c]) s)
  | _ => None
  end.

(** The list comprehension of [load_library], left to right: an
    exception at any item ends it, also after an untyped record. *)
Fixpoint Books_of (items : list json) : outcome (list Book) :=
  match items with
  | [] => Done []
  | item :: rest =>
      match Book_of item with
      | Done b =>
          match Books_of rest with
          | Done bs => Done (b :: bs)
          | r => r
          end
      | Untyped =>
          match Books_of rest with
          | Raised e => Raised e
          | Unfinished => Unfinished
          | _ => Untyped
          end
      | Raised e => Raised e
      | Unfinished => Unfinished
      end
  end.

Definition load_library (m : LibraryManager) (w : World)
    : outcome (LibraryManager * World) :=
  match fs w !! data_file m with
  | Some text =>
      match loads text with
      | Parsed data _ =>
          match iter data with
          | Some items =>
              match Books_of items with
              | Done bs => Done (with_books m bs, w)
              | Raised e => Raised e
              | Untyped => Untyped
              | Unfinished => Unfinished
              end
          | None => Raised TypeError
          end
      | DecodeError =>
          Done (with_books m [],
                print (u "Error: Invalid JSON file. Starting with empty library.") w)
      | OutOfFuel => Unfinished
      end
  | None => Done (with_books m [], w)
  end.

(** [LibraryManager(data_file)] *)
Definition init (path : str) (w : World) : outcome (LibraryManager * World) :=
  load_library {| data_file := path; books := [] |} w.

(** [[book.__dict__ for book in self.books]], the value that
    [save_library] hands to [json.dump], and the text that
    [json.dump(..., f, indent=4)] writes for it. *)
Definition catalog_value (bs : list Book) : json :=
  JArr (map (fun b => JObj (Book_dict b)) bs).

Definition catalog_text (bs : list Book) : str := dumps 4 (catalog_value bs).

Definition save_library (m : LibraryManager) (w : World) : World :=
  write_file (data_file m) (catalog_text (books m)) w.

Definition add_book (t a i g : str) (y : Z) (st : str)
    (m : LibraryManager) (w : World) : LibraryManager * World :=
  if existsb (fun b => bool_decide (isbn b = i)) (books m) then
    (m, print (u "Error: Book with ISBN " ++ i ++
               u " already exists in the library.") w)
  else
    let new_book :=
      {| title := t; author := a; isbn := i; genre := g; year_published := y;
         date_added := strftime_Ymd (now w); status := st |} in
    let m' := with_books m (books m ++ [new_book]) in
    let w' := save_library m' w in
    (m', print (u "Book '" ++ t ++ u "' added successfully!") w').

Definition remove_book (i : str) (m : LibraryManager) (w : World)
    : LibraryManager * World :=
  match list_find (fun b => isbn b = i) (books m) with
  | Some (k, removed_book) =>
      let m' := with_books m (delete k (books m)) in
      let w' := save_library m' w in
      (m', print (u "Book '" ++ title removed_book ++
                  u "' removed successfully!") w')
  | None =>
      (m, print (u "Error: Book with ISBN " ++ i ++
                 u " not found in the library.") w)
  end.

Definition update_book_status (i new_status : str) (m : LibraryManager)
    (w : World) : LibraryManager * World :=
  match list_find (fun b => isbn b = i) (books m) with
  | Some (k, book) =>
      let m' := with_books m (<[k := with_status book new_status]> (books m)) in
      let w' := save_library m' w in
      (m', print (u "Status updated successfully for '" ++ title book ++
                  u "'!") w')
  | None =>
      (m, print (u "Error: Book with ISBN " ++ i ++
                 u " not found in the library.") w)
  end.

Section Search.

(** [str.lower], which Python defines by the Unicode tables. *)
Variable lower : str -> str.

Definition matches (query : str) (book : Book) : bool :=
  str_in query (lower (title book)) ||
  str_in query (lower (author book)) ||
  str_in query (lower (isbn book)) ||
  str_in query (lower (genre book)).

Definition search_books (query : str) (m : LibraryManager) (w : World)
    : list Book * LibraryManager * World :=
  let query := lower query in
  (List.filter (matches query) (books m), m, w).

End Search.

(** The invariant of the catalog: no two records with the same isbn. *)
Definition unique_isbn (l : list Book) : Prop := NoDup (isbn <$> l).

(** [a] occurs in [b] as a contiguous run of code points. *)
Definition occurs_in (a b : str) : Prop := exists pre post, b = pre ++ a ++ post.

(** [selected P l r]: [r] consists of the elements of [l] that satisfy
    [P], each as often as in [l] and in the order of [l]. *)
Inductive selected {A : Type} (P : A -> Prop) : list A -> list A -> Prop :=
| selected_nil : selected P [] []
| selected_keep x l r : P x -> selected P l r -> selected P (x :: l) (x :: r)
| selected_skip x l r : ~ P x -> selected P l r -> selected P (x :: l) r.

(** Text that survives the backing file: code points only, and no
    high surrogate with a low surrogate right after it. *)
Definition wf_text (s : str) : Prop := is_str s /\ no_surrogate_pair s = true.

Definition wf_book (b : Book) : Prop :=
  wf_text (title b) /\ wf_text (author b) /\ wf_text (isbn b) /\
  wf_text (genre b) /\ wf_text (date_added b) /\ wf_text (status b).

(** ** Concrete inputs for the examples *)

(** [uq s]: the text [s] with a double quote wherever [s] has an
    apostrophe. *)
Definition uq (s : string) : str :=
  map (fun c => if c =? 39 then 34 else c) (u s).
Arguments uq s%_string.

Definition library_data_json : str := u "library_data.json".

Definition fresh_manager : LibraryManager :=
  {| data_file := library_data_json; books := [] |}.

(** A world whose only file is the backing file, with the given text. *)
Definition world_with (text : str) : World :=
  {| fs := {[ library_data_json := text ]};
     events := [];
     now := {| year := 2024; month := 3; day := 7 |} |}.

Definition empty_world : World :=
  {| fs := ∅; events := []; now := {| year := 2024; month := 3; day := 7 |} |}.

Definition orwell : Book :=
  {| title := u "1984"; author := u "George Orwell"; isbn := u "111";
     genre := u "Fiction"; year_published := 1949;
     date_added := u "2024-03-07"; status := u "to_read" |}.

Definition gatsby : Book :=
  {| title := u "The Great Gatsby"; author := u "F. Scott Fitzgerald";
     isbn := u "9780743273565"; genre := u "Fiction"; year_published := 1925;
     date_added := u "2024-03-07"; status := u "to_read" |}.

Definition two_books : LibraryManager :=
  {| data_file := library_data_json; books := [orwell; gatsby] |}.

(** A record with text that the encoder has to escape: a quote, a
    backslash, a line feed, a letter outside ASCII, a code point above
    the basic plane and a lone surrogate. *)
Definition escaped_book : Book :=
  {| title := [34; 92; 10; 233; 0x1f600; 0xd800; 65]; author := u "";
     isbn := u "333"; genre := u "Poetry"; year_published := -350;
     date_added := u "2024-03-07"; status := u "reading" |}.

Definition three_books : LibraryManager :=
  {| data_file := library_data_json; books := [orwell; escaped_book; gatsby] |}.

(** A record whose title is a high surrogate with a low surrogate right
    after it, and the record with the one code point the two stand for. *)
Definition surrogate_book : Book :=
  {| title := [0xd83d; 0xde00]; author := u "A"; isbn := u "1";
     genre := u "G"; year_published := 2020; date_added := u "2024-03-07";
     status := u "read" |}.

Definition joined_book : Book :=
  {| title := [0x1f600]; author := u "A"; isbn := u "1"; genre := u "G";
     year_published := 2020; date_added := u "2024-03-07";
     status := u "read" |}.

Definition surrogate_manager : LibraryManager :=
  {| data_file := library_data_json; books := [surrogate_book] |}.

(** A catalog with the same isbn in its second and third record. *)
Definition dune : Book :=
  {| title := u "Dune"; author := u "Frank Herbert"; isbn := u "111";
     genre := u "SF"; year_published := 1965; date_added := u "2024-03-07";
     status := u "read" |}.

Definition dune_copy : Book :=
  {| title := u "Dune (copy)"; author := u "Frank Herbert"; isbn := u "111";
     genre := u "SF"; year_published := 1965; date_added := u "2024-03-08";
     status := u "to_read" |}.

Definition with_copy : LibraryManager :=
  {| data_file := library_data_json; books := [gatsby; dune; dune_copy] |}.

(** A backing file, as an editor can leave it, with the same isbn in two
    records. *)
Definition twice_text : str :=
  uq "[{'title': 'Dune', 'author': 'Frank Herbert', 'isbn': '111',
       'genre': 'SF', 'year_published': 1965, 'date_added': '2024-03-07',
       'status': 'read'},
      {'title': 'Dune (copy)', 'author': 'Frank Herbert', 'isbn': '111',
       'genre': 'SF', 'year_published': 1965, 'date_added': '2024-03-08',
       'status': 'to_read'}]".

(** Valid JSON that is not a list of records: the one object lacks six
    of the seven fields. *)
Definition missing_fields_text : str := uq "[{'title': 'Dune'}]".

(** A file cut off in the middle: not valid JSON. *)
Definition truncated_text : str := uq "[{'title': 'Dune', 'auth".

(** The scenario of the specification: the catalogs after each step and
    the world at the end. *)
Definition scenario : list Book * list Book * list Book * list Book * World :=
  match init library_data_json empty_world with
  | Done (m0, w0) =>
      let '(m1, w1) := add_book (u "1984") (u "George Orwell") (u "111")
                                (u "Fiction") 1949 (u "to_read") m0 w0 in
      let '(m2, w2) := add_book (u "1984") (u "George Orwell") (u "111")
                                (u "Fiction") 1949 (u "to_read") m1 w1 in
      let '(m3, w3) := update_book_status (u "111") (u "read") m2 w2 in
      let '(m4, w4) := remove_book (u "111") m3 w3 in
      (books m1, books m2, books m3, books m4, w4)
  | _ => ([], [], [], [], empty_world)
  end.

(** The content of a backing file is a catalog when it decodes to a
    list whose items all turn into records. *)
Definition catalog_content (text : str) : Prop :=
  exists items bs, loads text = Parsed (JArr items) [] /\ Books_of items = Done bs.

(** ** Listing the catalog *)

(** ["-" * 80] *)
Definition rule : str := repeat 45 80.

(** [enumerate(l, start)] *)
Definition enumerate {A : Type} (start : nat) (l : list A) : list (nat * A) :=
  zip (seq start (length l)) l.

(** The five lines that the loop of [list_books] prints for one record. *)
Definition print_entry (w : World) (numbered : nat * Book) : World :=
  let (i, book) := numbered in
  let w := print (int_repr (Z.of_nat i) ++ u ". " ++ title book ++ u " by " ++
                  author book) w in
  let w := print (u "   ISBN: " ++ isbn book ++ u ", Genre: " ++ genre book) w in
  let w := print (u "   Published: " ++ int_repr (year_published book) ++
                  u ", Status: " ++ status book) w in
  let w := print (u "   Added: " ++ date_added book) w in
  print rule w.

Definition list_books (m : LibraryManager) (w : World) : LibraryManager * World :=
  match books m with
  | [] => (m, print (u "The library is empty.") w)
  | _ :: _ =>
      let w := print (10 :: u "Library Contents:") w in
      let w := print rule w in
      (m, fold_left print_entry (enumerate 1 (books m)) w)
  end.

(** ** The interactive shell

    The state of a run of [main]: the manager, the world, the lines
    that standard input still holds, and the prompts that [input] has
    shown, each with the number of events that came before it.
    A step of the shell returns a value, raises, or (an artefact of the
    recursion on fuel, which [main] never meets) has no fuel left. *)

Record Shell : Type := {
  library : LibraryManager;
  world : World;
  stdin : list (list N);
  prompts : list (nat * list N)
}.

Inductive shell_exn : Type := EOFError | ValueError.

Inductive run (A : Type) : Type :=
| Ret (a : A) (s : Shell)
| Exc (e : shell_exn) (s : Shell)
| NoFuel.
Arguments Ret {A} a s.
Arguments Exc {A} e s.
Arguments NoFuel {A}.

Definition ret {A : Type} (a : A) : Shell -> run A := fun s => Ret a s.

Definition bind {A B : Type} (c : Shell -> run A) (k : A -> Shell -> run B)
    : Shell -> run B :=
  fun s =>
    match c s with
    | Ret a s' => k a s'
    | Exc e s' => Exc e s'
    | NoFuel => NoFuel
    end.

Notation "x <- c ;; k" := (bind c (fun x => k))
  (at level 100, c at next level, right associativity).
Notation "c ;; k" := (bind c (fun _ => k))
  (at level 100, right associativity).

(** [print(line)] *)
Definition say (line : str) : Shell -> run unit :=
  fun s =>
    Ret tt {| library := library s; world := print line (world s);
              stdin := stdin s; prompts := prompts s |}.

(** [input(prompt)]: the prompt is shown, then a line is taken from
    standard input; [EOFError] when there is none. *)
Definition input (prompt : str) : Shell -> run (list N) :=
  fun s =>
    let shown := prompts s ++ [(length (events (world s)), prompt)] in
    match stdin s with
    | line :: rest =>
        Ret line {| library := library s; world := world s;
                    stdin := rest; prompts := shown |}
    | [] =>
        Exc EOFError {| library := library s; world := world s;
                        stdin := []; prompts := shown |}
    end.

(** A call of a method of [library] that returns nothing. *)
Definition call (method : LibraryManager -> World -> LibraryManager * World)
    : Shell -> run unit :=
  fun s =>
    let (m, w) := method (library s) (world s) in
    Ret tt {| library := m; world := w; stdin := stdin s; prompts := prompts s |}.

Section Shell.

(** [str.lower] and [int] on a [str]; [None] is [ValueError]. *)
Variable lower : str -> str.
Variable int : str -> option Z.

Definition to_int (text : str) : Shell -> run Z :=
  fun s =>
    match int text with
    | Some z => Ret z s
    | None => Exc ValueError s
    end.

Definition search (query : str) : Shell -> run (list Book) :=
  fun s =>
    let '(results, m, w) := search_books lower query (library s) (world s) in
    Ret results {| library := m; world := w; stdin := stdin s;
                   prompts := prompts s |}.

Definition print_menu : Shell -> run unit :=
  say (10 :: u "Personal Library Manager") ;;
  say (u "1. Add a book") ;;
  say (u "2. Remove a book") ;;
  say (u "3. Search books") ;;
  say (u "4. List all books") ;;
  say (u "5. Update book status") ;;
  say (u "6. Exit").

Fixpoint say_results (results : list Book) : Shell -> run unit :=
  match results with
  | [] => ret tt
  | book :: rest =>
      say (u "- " ++ title book ++ u " by " ++ author book ++ u " (ISBN: " ++
           isbn book ++ u ")") ;;
      say_results rest
  end.

(** One turn of the [while True] loop of [main]: [true] to go on,
    [false] after [break]. *)
Definition iteration : Shell -> run bool :=
  print_menu ;;
  choice <- input (10 :: u "Enter your choice (1-6): ") ;;
  if bool_decide (choice = u "1") then
    t <- input (u "Enter book title: ") ;;
    a <- input (u "Enter author: ") ;;
    i <- input (u "Enter ISBN: ") ;;
    g <- input (u "Enter genre: ") ;;
    year_text <- input (u "Enter year published: ") ;;
    y <- to_int year_text ;;
    st <- input (u "Enter status (read/reading/to_read): ") ;;
    call (add_book t a i g y st) ;;
    ret true
  else if bool_decide (choice = u "2") then
    i <- input (u "Enter ISBN of the book to remove: ") ;;
    call (remove_book i) ;;
    ret true
  else if bool_decide (choice = u "3") then
    query <- input (u "Enter search query: ") ;;
    results <- search query ;;
    match results with
    | _ :: _ => say (10 :: u "Search Results:") ;; say_results results
    | [] => say (u "No books found matching your search.")
    end ;;
    ret true
  else if bool_decide (choice = u "4") then
    call list_books ;;
    ret true
  else if bool_decide (choice = u "5") then
    i <- input (u "Enter ISBN of the book to update: ") ;;
    new_status <- input (u "Enter new status (read/reading/to_read): ") ;;
    call (update_book_status i new_status) ;;
    ret true
  else if bool_decide (choice = u "6") then
    say (u "Goodbye!") ;;
    ret false
  else
    say (u "Invalid choice. Please try again.") ;;
    ret true.

Fixpoint loop (fuel : nat) : Shell -> run unit :=
  match fuel with
  | O => fun _ => NoFuel
  | S fuel =>
      again <- iteration ;;
      if again : bool then loop fuel else ret tt
  end.

(** [main()], started in world [w] with [lines] on standard input. *)
Definition main (w : World) (lines : list str) : outcome (run unit) :=
  match init library_data_json w with
  | Done (m, w') =>
      Done (loop (S (length lines))
                 {| library := m; world := w'; stdin := lines; prompts := [] |})
  | Raised e => Raised e
  | Untyped => Untyped
  | Unfinished => Unfinished
  end.

(** The script: [main()], then a second manager, to which the sample
    book is added, and a last line.  The result is that second manager. *)
Definition script (w : World) (lines : list str) : outcome (run LibraryManager) :=
  match main w lines with
  | Done (Ret _ s) =>
      match init library_data_json (world s) with
      | Done (m, w1) =>
          let (m', w2) :=
            add_book (u "The Great Gatsby") (u "F. Scott Fitzgerald")
                     (u "9780743273565") (u "Fiction") 1925 (u "to_read") m w1 in
          let w3 := print (u "Added test book: The Great Gatsby") w2 in
          Done (Ret m' {| library := library s; world := w3;
                          stdin := stdin s; prompts := prompts s |})
      | Raised e => Raised e
      | Untyped => Untyped
      | Unfinished => Unfinished
      end
  | Done (Exc e s) => Done (Exc e s)
  | Done NoFuel => Done NoFuel
  | Raised e => Raised e
  | Untyped => Untyped
  | Unfinished => Unfinished
  end.

End Shell.

(** ** Notions used to state what the operations keep *)

(** The backing file holds the text of the catalog in memory. *)
Definition in_sync (m : LibraryManager) (w : World) : Prop :=
  fs w !! data_file m = Some (catalog_text (books m)).

(** [stays I c]: the step [c] of the shell keeps [I], a property of the
    manager and the files, however it ends. *)
Definition stays {A : Type}
    (I : LibraryManager -> gmap (list N) (list N) -> Prop)
    (c : Shell -> run A) : Prop :=
  forall s,
    I (library s) (fs (world s)) ->
    match c s with
    | Ret _ s' | Exc _ s' => I (library s') (fs (world s'))
    | NoFuel => True
    end.

(** [int] on a text made of an optional sign and ASCII digits, the
    instance used on examples; it gives [None] on any other text. *)
Definition ascii_int (text : str) : option Z :=
  let digits_of (ds : str) (negative : bool) :=
    match ds with
    | [] => None
    | _ :: _ =>
        if forallb is_digit ds then
          Some (Z.of_int (if negative then Decimal.Neg (uint_of_chars ds)
                          else Decimal.Pos (uint_of_chars ds)))
        else None
    end in
  match text with
  | c :: r =>
      if c =? 45 then digits_of r true
      else if c =? 43 then digits_of r false
      else digits_of text false
  | [] => None
  end.

(** A session at the keyboard: two books are added, the isbn of the
    second is tried again, the catalog is listed and searched, a status
    is updated, a wrong choice is made, a book is removed, and the user
    leaves with one line unread. *)
Definition session : list str :=
  [ u "1"; u "Brave New World"; u "Aldous Huxley"; u "222"; u "Fiction"; u "1932"; u "reading";
    u "1"; u "1984"; u "George Orwell"; u "111"; u "Fiction"; u "1949"; u "to_read";
    u "1"; u "Animal Farm"; u "George Orwell"; u "111"; u "Fiction"; u "1945"; u "read";
    u "4"; u "3"; u "ORWELL"; u "3"; u "tolkien";
    u "5"; u "111"; u "read"; u "7"; u "2"; u "111"; u "4"; u "6"; u "never read" ].

(** What a call has done to the catalog and the files: nothing, or it
    has kept the path, and the backing file, and no other file, now
    holds the text of the new catalog. *)
Definition untouched_or_saved (m : LibraryManager) (w : World)
    (after : LibraryManager * World) : Prop :=
  (fst after = m /\ fs (snd after) = fs w) \/
  (data_file (fst after) = data_file m /\
   fs (snd after) = <[data_file m := catalog_text (books (fst after))]> (fs w)).

(** The lines of [list_books] for the record numbered [i]. *)
Definition entry_lines (i : nat) (book : Book) : list str :=
  [ int_repr (Z.of_nat i) ++ u ". " ++ title book ++ u " by " ++ author book;
    u "   ISBN: " ++ isbn book ++ u ", Genre: " ++ genre book;
    u "   Published: " ++ int_repr (year_published book) ++ u ", Status: " ++
      status book;
    u "   Added: " ++ date_added book;
    rule ].

(** The seven lines of the menu. *)
Definition menu_lines : list str :=
  [ 10 :: u "Personal Library Manager"; u "1. Add a book"; u "2. Remove a book";
    u "3. Search books"; u "4. List all books"; u "5. Update book status";
    u "6. Exit" ].

(** The world after [lines] are printed one after the other. *)
Definition print_lines (lines : list str) (w : World) : World :=
  fold_left (fun w line => print line w) lines w.

(** The line of [main] for a record that the search has found. *)
Definition result_line (book : Book) : str :=
  u "- " ++ title book ++ u " by " ++ author book ++ u " (ISBN: " ++
  isbn book ++ u ")".

(** The shell with manager [m] in the empty world, [lines] waiting on
    standard input and no prompt shown yet. *)
Definition shell_of (m : LibraryManager) (lines : list str) : Shell :=
  {| library := m; world := empty_world; stdin := lines; prompts := [] |}.

(** The state in which [main] leaves the shell when it is started in
    the empty world with the lines of [session]. *)
Definition session_end : Shell :=
  match main ascii_lower ascii_int empty_world session with
  | Done (Ret _ s) => s
  | _ => {| library := fresh_manager; world := empty_world; stdin := [];
            prompts := [] |}
  end.

(** The object [d] has the seven keys of a record and no other, and
    holds the fields of [b] under them. *)
Definition holds (d : list (str * json)) (b : Book) : Prop :=
  kwargs_ok d = true /\
  dict_get (u "title") d = Some (JStr (title b)) /\
  dict_get (u "author") d = Some (JStr (author b)) /\
  dict_get (u "isbn") d = Some (JStr (isbn b)) /\
  dict_get (u "genre") d = Some (JStr (genre b)) /\
  dict_get (u "year_published") d = Some (JInt (year_published b)) /\
  dict_get (u "date_added") d = Some (JStr (date_added b)) /\
  dict_get (u "status") d = Some (JStr (status b)).

(** [ends_at R c s]: started in [s], the step [c] returns or raises in
    a state that [R] relates to [s]. *)
Definition ends_at {A : Type} (R : Shell -> Shell -> Prop)
    (c : Shell -> run A) (s : Shell) : Prop :=
  match c s with
  | Ret _ s' | Exc _ s' => R s s'
  | NoFuel => False
  end.

(** The run [r] has ended, by a return or by an exception of the
    shell, in state [s]. *)
Definition ends_in {A : Type} (r : outcome (run A)) (s : Shell) : Prop :=
  (exists a, r = Done (Ret a s)) \/ (exists e, r = Done (Exc e s)).

(** From [s] to [s'] nothing happened but printing and reading: the
    manager, the files and the clock are the same, the trace has grown
    by printed lines, and standard input has lost the lines read. *)
Definition quiet (s s' : Shell) : Prop :=
  library s' = library s /\
  fs (world s') = fs (world s) /\
  now (world s') = now (world s) /\
  (exists lines, events (world s') = events (world s) ++ map Print lines) /\
  (exists read, stdin s = read ++ stdin s').

(** * Properties *)

(** ** The linear scans *)

Lemma existsb_isbn (i : str) (l : list Book) :
  existsb (fun b => bool_decide (isbn b = i)) l = true <->
  exists b, b ∈ l /\ isbn b = i.
Proof.
  rewrite existsb_exists. split; intros (b & Hin & Hb); exists b.
  - apply bool_decide_eq_true in Hb. by rewrite <- list_elem_of_In in Hin.
  - split; [by apply list_elem_of_In | by apply bool_decide_eq_true].
Qed.

(** What the [for] loops of [remove_book] and [update_book_status] find:
    the first record with the given isbn, and its position. *)
Lemma first_match_split (i : str) (l : list Book) (k : nat) (b : Book) :
  list_find (fun b => isbn b = i) l = Some (k, b) ->
  exists l1 l2,
    l = l1 ++ b :: l2 /\ length l1 = k /\ isbn b = i /\
    Forall (fun x => isbn x <> i) l1.
Proof.
  intros (Hk & Hb & Hbefore)%list_find_Some.
  exists (take k l), (drop (S k) l).
  assert (k < length l)%nat by (by eapply lookup_lt_Some).
  repeat split.
  - by rewrite take_drop_middle.
  - rewrite length_take. lia.
  - done.
  - apply Forall_forall. intros x Hx.
    apply list_elem_of_lookup in Hx as [j Hj].
    pose proof (lookup_lt_Some _ _ _ Hj) as Hlt. rewrite length_take in Hlt.
    rewrite lookup_take_lt in Hj by lia.
    eapply Hbefore; [done | lia].
Qed.

Lemma first_match_found (i : str) (l1 l2 : list Book) (b : Book) :
  isbn b = i -> Forall (fun x => isbn x <> i) l1 ->
  list_find (fun b => isbn b = i) (l1 ++ b :: l2) = Some (length l1, b).
Proof.
  intros Hb Hl1. apply list_find_Some. repeat split.
  - by rewrite list_lookup_middle.
  - done.
  - intros j y Hj Hlt. rewrite lookup_app_l in Hj by done.
    rewrite Forall_forall in Hl1. apply Hl1.
    by eapply list_elem_of_lookup_2.
Qed.

Lemma no_match_None (i : str) (l : list Book) :
  list_find (fun b => isbn b = i) l = None <-> Forall (fun x => isbn x <> i) l.
Proof. by rewrite list_find_None. Qed.

Lemma insert_middle {A} (l1 l2 : list A) (x y : A) :
  <[length l1 := y]> (l1 ++ x :: l2) = l1 ++ y :: l2.
Proof. induction l1 as [| z l1 IH]; [done |]. cbn. f_equal. apply IH. Qed.

(** ** The clock *)

Lemma forallb_below (P : N -> bool) (n : N) :
  forallb P (map N.of_nat (seq 0 (N.to_nat n))) = true ->
  forall y, y < n -> P y = true.
Proof.
  intros Hall y Hy. rewrite forallb_forall in Hall. apply Hall.
  apply in_map_iff. exists (N.to_nat y). split; [apply N2Nat.id |].
  apply in_seq. lia.
Qed.

Lemma year_digits (y : N) :
  1000 <= y <= 9999 -> all_digits 4 (zfill 4 (decimal y)) = true.
Proof.
  intros Hy.
  pose proof (forallb_below
    (fun y => (y <? 1000) || all_digits 4 (zfill 4 (decimal y))) 10000) as Hall.
  specialize (Hall ltac:(vm_compute; reflexivity) y ltac:(lia)). cbv beta in Hall.
  apply orb_true_iff in Hall as [Hlt%N.ltb_lt | Hd]; [lia | done].
Qed.

Lemma two_digits (d : N) : d <= 99 -> all_digits 2 (zfill 2 (decimal d)) = true.
Proof.
  intros Hd.
  exact (forallb_below (fun d => all_digits 2 (zfill 2 (decimal d))) 100
           ltac:(vm_compute; reflexivity) d ltac:(lia)).
Qed.

Lemma all_digits_length (n : nat) (s : str) :
  all_digits n s = true -> length s = n.
Proof. unfold all_digits. intros [H%Nat.eqb_eq _]%andb_true_iff. done. Qed.

Lemma strftime_Ymd_form (t : datetime) :
  valid_clock t -> is_Ymd (strftime_Ymd t) = true.
Proof.
  intros (Hy & Hm & Hd). unfold strftime_Ymd.
  pose proof (year_digits (year t) Hy) as HY.
  pose proof (two_digits (month t) ltac:(lia)) as HM.
  pose proof (two_digits (day t) ltac:(lia)) as HD.
  pose proof (all_digits_length _ _ HY) as LY.
  pose proof (all_digits_length _ _ HM) as LM.
  pose proof (all_digits_length _ _ HD) as LD.
  destruct (zfill 4 _) as [|y1 [|y2 [|y3 [|y4 [|]]]]]; try discriminate LY.
  destruct (zfill 2 (decimal (month t))) as [|m1 [|m2 [|]]]; try discriminate LM.
  destruct (zfill 2 (decimal (day t))) as [|d1 [|d2 [|]]]; try discriminate LD.
  unfold is_Ymd. cbn [take drop app lookup list_lookup].
  rewrite HY, HM, HD. done.
Qed.

(** ** Adding a record *)

(** C1: when some record of the catalog already has the isbn passed to
    [add_book], the call prints the duplicate-isbn error and nothing
    else happens: the manager is returned as it was, no file changes and
    the only new event is that [Print] (so no [Write], no save). *)
Theorem add_book_duplicate_isbn (t a i g : str) (y : Z) (st : str)
    (m : LibraryManager) (w : World) :
  (exists b, b ∈ books m /\ isbn b = i) ->
  exists w',
    add_book t a i g y st m w = (m, w') /\
    fs w' = fs w /\
    now w' = now w /\
    events w' =
      events w ++ [Print (u "Error: Book with ISBN " ++ i ++
                          u " already exists in the library.")].
Proof.
  intros Hdup%existsb_isbn. unfold add_book. rewrite Hdup.
  eexists. split; [reflexivity |]. by cbn.
Qed.

(** C8: with an isbn that no record has, [add_book] appends one record
    after the existing ones, which stay as they are and in order; the
    new record carries the six arguments and the date of the clock as
    [date_added], a text of the form YYYY-MM-DD for the dates a clock
    shows; the whole new catalog is then written to the backing file,
    and the success line is printed. *)
Theorem add_book_fresh_isbn (t a i g : str) (y : Z) (st : str)
    (m : LibraryManager) (w : World) :
  Forall (fun b => isbn b <> i) (books m) ->
  exists new_book m' w',
    add_book t a i g y st m w = (m', w') /\
    books m' = books m ++ [new_book] /\
    data_file m' = data_file m /\
    title new_book = t /\ author new_book = a /\ isbn new_book = i /\
    genre new_book = g /\ year_published new_book = y /\
    status new_book = st /\
    date_added new_book = strftime_Ymd (now w) /\
    (valid_clock (now w) -> is_Ymd (date_added new_book) = true) /\
    fs w' = <[data_file m := catalog_text (books m ++ [new_book])]> (fs w) /\
    events w' =
      events w ++ [Write (data_file m) (catalog_text (books m ++ [new_book]));
                   Print (u "Book '" ++ t ++ u "' added successfully!")].
Proof.
  intros Hfresh. unfold add_book.
  destruct (existsb _ _) eqn:Hex.
  { apply existsb_isbn in Hex as (b & Hb & Hi).
    rewrite Forall_forall in Hfresh. by destruct (Hfresh b Hb). }
  do 3 eexists. split; [reflexivity |]. cbn.
  repeat split; try done.
  - apply strftime_Ymd_form.
  - by rewrite <- app_assoc.
Qed.

(** ** The invariant *)

Lemma add_book_books (t a i g : str) (y : Z) (st : str) m w :
  books (add_book t a i g y st m w).1 = books m \/
  Forall (fun b => isbn b <> i) (books m) /\
  exists b, isbn b = i /\ books (add_book t a i g y st m w).1 = books m ++ [b].
Proof.
  unfold add_book. destruct (existsb _ _) eqn:Hex; [by left | right].
  split.
  - apply Forall_forall. intros b Hb Hi.
    assert (existsb (fun b => bool_decide (isbn b = i)) (books m) = true) as Ht
      by (apply existsb_isbn; eauto).
    congruence.
  - eexists. split; [| reflexivity]. reflexivity.
Qed.

(** C2: a catalog without two records of the same isbn is still one
    after [add_book], after [remove_book] and after
    [update_book_status], whatever their arguments. *)
Theorem unique_isbn_preserved (m : LibraryManager) (w : World) :
  unique_isbn (books m) ->
  (forall t a i g y st, unique_isbn (books (add_book t a i g y st m w).1)) /\
  (forall i, unique_isbn (books (remove_book i m w).1)) /\
  (forall i st, unique_isbn (books (update_book_status i st m w).1)).
Proof.
  unfold unique_isbn. intros Hm. repeat split.
  - intros t a i g y st.
    destruct (add_book_books t a i g y st m w) as [-> | (Hfresh & b & Hb & ->)];
      [done |].
    rewrite fmap_app. apply NoDup_app. repeat split; [done | | ].
    + intros x (b' & -> & Hb')%list_elem_of_fmap Hx.
      cbn in Hx. apply list_elem_of_singleton in Hx.
      rewrite Forall_forall in Hfresh. apply (Hfresh b' Hb'). congruence.
    + apply NoDup_singleton.
  - intros i. unfold remove_book.
    destruct (list_find _ _) as [[k b] |]; [cbn | done].
    rewrite list_fmap_delete. exact (sublist_NoDup _ _ Hm (sublist_delete _ _)).
  - intros i st. unfold update_book_status.
    destruct (list_find _ _) as [[k b] |] eqn:Hfind; [cbn | done].
    apply list_find_Some in Hfind as (Hk & _ & _).
    rewrite list_fmap_insert. cbn.
    rewrite list_insert_id; [done |]. by rewrite list_lookup_fmap, Hk.
Qed.

(** ** Removing a record *)

(** C4: when a record has the isbn, [remove_book] takes out the first
    such record and no other: the records before and after it stay, in
    order, the catalog is one shorter, the new catalog is written to the
    backing file and the removal is confirmed with the title.  When no
    record has the isbn, the not-found error is printed and neither the
    catalog nor any file changes. *)
Theorem remove_book_spec (i : str) (m : LibraryManager) (w : World) :
  ((exists b, b ∈ books m /\ isbn b = i) ->
   exists l1 b l2 m' w',
     books m = l1 ++ b :: l2 /\ isbn b = i /\
     Forall (fun x => isbn x <> i) l1 /\
     remove_book i m w = (m', w') /\
     books m' = l1 ++ l2 /\
     data_file m' = data_file m /\
     S (length (books m')) = length (books m) /\
     fs w' = <[data_file m := catalog_text (l1 ++ l2)]> (fs w) /\
     events w' =
       events w ++ [Write (data_file m) (catalog_text (l1 ++ l2));
                    Print (u "Book '" ++ title b ++ u "' removed successfully!")])
  /\
  (Forall (fun b => isbn b <> i) (books m) ->
   exists w',
     remove_book i m w = (m, w') /\
     fs w' = fs w /\
     events w' =
       events w ++ [Print (u "Error: Book with ISBN " ++ i ++
                           u " not found in the library.")]).
Proof.
  split.
  - intros (b0 & Hin & Hb0).
    destruct (list_find_elem_of (fun b => isbn b = i) _ _ Hin Hb0) as [[k b] Hfind].
    destruct (first_match_split _ _ _ _ Hfind) as (l1 & l2 & Hl & Hk & Hb & Hl1).
    exists l1, b, l2. unfold remove_book. rewrite Hfind.
    do 2 eexists. repeat split; try done; cbn.
    + rewrite Hl, <- Hk. apply delete_middle.
    + rewrite Hl, <- Hk, delete_middle. rewrite !length_app. cbn. lia.
    + rewrite Hl, <- Hk, delete_middle. done.
    + rewrite Hl, <- Hk, delete_middle. by rewrite <- app_assoc.
  - intros Habsent%no_match_None. unfold remove_book. rewrite Habsent.
    eexists. by repeat split.
Qed.

(** ** Updating a status *)

(** C5: when a record has the isbn, [update_book_status] replaces the
    first such record by one that differs from it in the status field
    only (title, author, isbn, genre, year_published and date_added are
    the old ones, the status is the new one, whatever text it is); the
    records before and after it stay, in order, and the catalog is
    written to the backing file.  When no record has the isbn, the
    not-found error is printed and the catalog stays as it was. *)
Theorem update_book_status_spec (i st : str) (m : LibraryManager) (w : World) :
  ((exists b, b ∈ books m /\ isbn b = i) ->
   exists l1 b b' l2 m' w',
     books m = l1 ++ b :: l2 /\ isbn b = i /\
     Forall (fun x => isbn x <> i) l1 /\
     update_book_status i st m w = (m', w') /\
     books m' = l1 ++ b' :: l2 /\
     data_file m' = data_file m /\
     title b' = title b /\ author b' = author b /\ isbn b' = isbn b /\
     genre b' = genre b /\ year_published b' = year_published b /\
     date_added b' = date_added b /\
     status b' = st /\
     fs w' = <[data_file m := catalog_text (l1 ++ b' :: l2)]> (fs w) /\
     events w' =
       events w ++ [Write (data_file m) (catalog_text (l1 ++ b' :: l2));
                    Print (u "Status updated successfully for '" ++ title b ++
                           u "'!")])
  /\
  (Forall (fun b => isbn b <> i) (books m) ->
   exists w',
     update_book_status i st m w = (m, w') /\
     fs w' = fs w /\
     events w' =
       events w ++ [Print (u "Error: Book with ISBN " ++ i ++
                           u " not found in the library.")]).
Proof.
  split.
  - intros (b0 & Hin & Hb0).
    destruct (list_find_elem_of (fun b => isbn b = i) _ _ Hin Hb0) as [[k b] Hfind].
    destruct (first_match_split _ _ _ _ Hfind) as (l1 & l2 & Hl & Hk & Hb & Hl1).
    assert (<[k := with_status b st]> (books m) = l1 ++ with_status b st :: l2)
      as Hins by (rewrite Hl, <- Hk; apply insert_middle).
    exists l1, b, (with_status b st), l2. unfold update_book_status. rewrite Hfind.
    do 2 eexists. repeat split; try done; cbn.
    + by rewrite Hins.
    + by rewrite Hins, <- app_assoc.
  - intros Habsent%no_match_None. unfold update_book_status. rewrite Habsent.
    eexists. by repeat split.
Qed.

(** C9: a second [update_book_status] with the same isbn and status
    leaves the manager that the first one produced. *)
Theorem update_book_status_idempotent (i st : str) (m : LibraryManager)
    (w w' : World) :
  (update_book_status i st (update_book_status i st m w).1 w').1 =
  (update_book_status i st m w).1.
Proof.
  unfold update_book_status at 2 3.
  destruct (list_find _ (books m)) as [[k b] |] eqn:Hfind; cbn.
  - destruct (first_match_split _ _ _ _ Hfind) as (l1 & l2 & Hl & Hk & Hb & Hl1).
    unfold update_book_status. cbn.
    rewrite Hl, <- Hk, insert_middle.
    rewrite (first_match_found i l1 l2 (with_status b st)) by done.
    cbn. by rewrite insert_middle.
  - unfold update_book_status. by rewrite Hfind.
Qed.

(** C10: in a catalog where the isbn occurs more than once, which
    [load_library] accepts from a file, [update_book_status] rewrites
    the record at the first position that has the isbn and no other:
    every other position, the later ones with the same isbn included,
    holds the record it held before. *)
Theorem update_book_status_first_only (i st : str) (m : LibraryManager)
    (w : World) (k : nat) (b : Book) :
  books m !! k = Some b -> isbn b = i ->
  (forall j x, (j < k)%nat -> books m !! j = Some x -> isbn x <> i) ->
  books (update_book_status i st m w).1 !! k = Some (with_status b st) /\
  (forall j, j <> k ->
     books (update_book_status i st m w).1 !! j = books m !! j) /\
  (forall j x, (k < j)%nat -> books m !! j = Some x -> isbn x = i ->
     books (update_book_status i st m w).1 !! j = Some x) /\
  (exists m0 w0 l b1 b2,
     load_library m0 w0 = Done (with_books m0 (b1 :: b2 :: l), w0) /\
     isbn b1 = isbn b2).
Proof.
  intros Hk Hb Hfirst.
  assert (list_find (fun b => isbn b = i) (books m) = Some (k, b)) as Hfind.
  { apply list_find_Some. repeat split; [done | done |].
    intros j x Hj Hlt. by eapply Hfirst. }
  assert (k < length (books m))%nat by (by eapply lookup_lt_Some).
  unfold update_book_status. rewrite Hfind. cbn.
  split; [by apply list_lookup_insert_eq |].
  split; [intros j Hj; by apply list_lookup_insert_ne |].
  split.
  - intros j x Hj Hx _. rewrite list_lookup_insert_ne by lia. done.
  - exists fresh_manager, (world_with twice_text). do 3 eexists.
    split; [vm_compute; reflexivity | reflexivity].
Qed.

(** ** Searching *)

Lemma startswith_spec (b a : str) :
  startswith b a = true <-> exists post, b = a ++ post.
Proof.
  revert b. induction a as [| x a IH]; intros b; cbn.
  - split; [intros _; by exists b | done].
  - destruct b as [| y b]; cbn.
    + split; [done | intros [post Hpost]; discriminate].
    + rewrite andb_true_iff, N.eqb_eq, IH. split.
      * intros [-> [post ->]]. by exists post.
      * intros [post [= -> ->]]. split; [done | by exists post].
Qed.

Lemma str_in_spec (a b : str) : str_in a b = true <-> occurs_in a b.
Proof.
  unfold occurs_in. induction b as [| y b IH].
  - cbn. rewrite orb_false_r, startswith_spec. split.
    + intros [post ->]. by exists [], post.
    + intros (pre & post & H). symmetry in H.
      apply app_eq_nil in H as [-> H]. apply app_eq_nil in H as [-> ->].
      by exists [].
  - cbn [str_in]. rewrite orb_true_iff, startswith_spec, IH. split.
    + intros [[post ->] | (pre & post & ->)].
      * by exists [], post.
      * by exists (y :: pre), post.
    + intros ([| z pre] & post & H).
      * left. by exists post.
      * right. injection H as -> ->. by exists pre, post.
Qed.

Lemma occurs_in_nil (b : str) : occurs_in [] b.
Proof. by exists [], b. Qed.

Lemma filter_selected {A} (f : A -> bool) (P : A -> Prop) (l : list A) :
  (forall x, f x = true <-> P x) -> selected P l (List.filter f l).
Proof.
  intros Hf. induction l as [| x l IH]; cbn; [constructor |].
  destruct (f x) eqn:Hx.
  - apply selected_keep; [by apply Hf | done].
  - apply selected_skip; [| done]. rewrite <- Hf. congruence.
Qed.

Lemma selected_all {A} (P : A -> Prop) (l r : list A) :
  (forall x, P x) -> selected P l r -> r = l.
Proof. intros HP. induction 1; [done | by f_equal | by destruct (H (HP x))]. Qed.

Lemma selected_sublist {A} (P : A -> Prop) (l r : list A) :
  selected P l r -> r `sublist_of` l.
Proof. induction 1; by constructor. Qed.

Lemma selected_elem_of {A} (P : A -> Prop) (l r : list A) :
  selected P l r -> forall x, x ∈ r <-> x ∈ l /\ P x.
Proof.
  induction 1 as [| y l r Hy _ IH | y l r Hy _ IH]; intros x.
  - split; [by intros ?%not_elem_of_nil | by intros [?%not_elem_of_nil _]].
  - rewrite !elem_of_cons, IH. intuition (subst; auto).
  - rewrite elem_of_cons, IH. intuition (subst; tauto).
Qed.

Lemma matches_spec (lower : str -> str) (query : str) (b : Book) :
  matches lower query b = true <->
  occurs_in query (lower (title b)) \/ occurs_in query (lower (author b)) \/
  occurs_in query (lower (isbn b)) \/ occurs_in query (lower (genre b)).
Proof.
  unfold matches. rewrite !orb_true_iff, !str_in_spec. tauto.
Qed.

(** C3: [search_books] returns the records of the catalog, in catalog
    order, whose lowered title, author, isbn or genre contains the
    lowered query, and no others; it hands back the manager and the
    world untouched (no mutation, no write); the empty query selects
    the whole catalog; and two queries with the same lowering (two
    spellings that differ in case only) select the same records. *)
Theorem search_books_spec (lower : str -> str) (query : str)
    (m : LibraryManager) (w : World) :
  lower [] = [] ->
  exists found,
    search_books lower query m w = (found, m, w) /\
    selected (fun b => occurs_in (lower query) (lower (title b)) \/
                       occurs_in (lower query) (lower (author b)) \/
                       occurs_in (lower query) (lower (isbn b)) \/
                       occurs_in (lower query) (lower (genre b)))
             (books m) found /\
    search_books lower [] m w = (books m, m, w) /\
    (forall query', lower query' = lower query ->
                    search_books lower query' m w = (found, m, w)).
Proof.
  intros Hnil. eexists. split; [reflexivity |]. repeat split.
  - apply filter_selected. intros b. apply matches_spec.
  - unfold search_books. rewrite Hnil. do 2 f_equal.
    apply (selected_all (fun _ => True)); [done |].
    apply filter_selected. intros b. rewrite matches_spec.
    split; [done | intros _; left; apply occurs_in_nil].
  - intros query' Hq. unfold search_books. by rewrite Hq.
Qed.

(** ** Text through the encoder and back *)

Lemma hex_value_hex_digit (d : N) : d < 16 -> hex_value (hex_digit d) = Some d.
Proof.
  intros Hd. unfold hex_digit, hex_value, is_digit.
  destruct (N.ltb_spec d 10).
  - replace (48 <=? 48 + d) with true by (symmetry; apply N.leb_le; lia).
    replace (48 + d <=? 57) with true by (symmetry; apply N.leb_le; lia).
    cbn. f_equal. lia.
  - replace (87 + d <=? 57) with false by (symmetry; apply N.leb_gt; lia).
    rewrite andb_false_r.
    replace (97 <=? 87 + d) with true by (symmetry; apply N.leb_le; lia).
    replace (87 + d <=? 102) with true by (symmetry; apply N.leb_le; lia).
    cbn. f_equal. lia.
Qed.

Lemma decode_u_escape (n : N) (rest : str) :
  n < 0x10000 ->
  exists h3 h2 h1 h0,
    u_escape n ++ rest = 92 :: 117 :: h3 :: h2 :: h1 :: h0 :: rest /\
    decode_uXXXX h3 h2 h1 h0 = Some n.
Proof.
  intros Hn. do 4 eexists. split; [reflexivity |].
  unfold decode_uXXXX.
  rewrite !hex_value_hex_digit by (apply N.mod_lt; lia).
  f_equal.
  assert (n / 16 / 16 = n / 256) as D1 by (by rewrite N.Div0.div_div).
  assert (n / 256 / 16 = n / 4096) as D2 by (by rewrite N.Div0.div_div).
  pose proof (N.div_mod n 16 ltac:(lia)) as E0.
  pose proof (N.div_mod (n / 16) 16 ltac:(lia)) as E1.
  pose proof (N.div_mod (n / 256) 16 ltac:(lia)) as E2.
  rewrite D1 in E1. rewrite D2 in E2.
  assert (n / 4096 < 16) as Hq by (apply N.Div0.div_lt_upper_bound; lia).
  rewrite (N.mod_small (n / 4096)) by done.
  lia.
Qed.

Lemma lor_disjoint_add (a b : N) : N.land a b = 0 -> N.lor a b = a + b.
Proof.
  intros H. rewrite N.add_nocarry_lxor by done. symmetry. by apply N.lxor_lor.
Qed.

Lemma land_mul_1024 (a b : N) : b < 1024 -> N.land (a * 1024) b = 0.
Proof.
  intros Hb. rewrite <- (N.mod_small b 1024) by done.
  change 1024 with (2 ^ 10). rewrite <- (N.land_ones b).
  rewrite (N.land_comm b), N.land_assoc, N.land_ones.
  by rewrite N.Div0.mod_mul.
Qed.

(** The two escapes written for a code point above the basic plane are
    a high and a low surrogate, and the decoder's formula gives the code
    point back. *)
Lemma surrogate_pair (c : N) :
  0x10000 <= c < 0x110000 ->
  let n := c - 0x10000 in
  let hi := N.lor 0xd800 (N.land (N.shiftr n 10) 0x3ff) in
  let lo := N.lor 0xdc00 (N.land n 0x3ff) in
  hi < 0x10000 /\ lo < 0x10000 /\
  is_high_surrogate hi = true /\ is_low_surrogate lo = true /\
  0x10000 + N.lor (N.shiftl (hi - 0xd800) 10) (lo - 0xdc00) = c.
Proof.
  intros Hc n hi lo.
  assert (n < 0x100000) as Hn by (unfold n; lia).
  assert (hi = 0xd800 + n / 1024) as Hhi.
  { unfold hi. change 0x3ff with (N.ones 10).
    rewrite N.land_ones, N.shiftr_div_pow2. change (2 ^ 10) with 1024.
    assert (n / 1024 < 1024) by (apply N.Div0.div_lt_upper_bound; lia).
    rewrite N.mod_small by done.
    apply lor_disjoint_add. by apply (land_mul_1024 54). }
  assert (lo = 0xdc00 + n mod 1024) as Hlo.
  { unfold lo. change 0x3ff with (N.ones 10).
    rewrite N.land_ones. change (2 ^ 10) with 1024.
    apply lor_disjoint_add. apply (land_mul_1024 55). by apply N.mod_lt. }
  assert (n / 1024 < 1024) as Hq by (apply N.Div0.div_lt_upper_bound; lia).
  assert (n mod 1024 < 1024) as Hr by (by apply N.mod_lt).
  assert (c = 1024 * (n / 1024) + n mod 1024 + 0x10000) as Hcn
    by (rewrite <- N.div_mod by lia; unfold n; lia).
  clearbody hi lo. subst hi lo. clear Hn.
  generalize dependent (n / 1024). generalize dependent (n mod 1024).
  intros r Hr q Hq Hcn. clear n. subst c.
  unfold is_high_surrogate, is_low_surrogate.
  repeat split; try lia.
  - apply andb_true_iff. split; apply N.leb_le; lia.
  - apply andb_true_iff. split; apply N.leb_le; lia.
  - replace (0xd800 + q - 0xd800) with q by lia.
    replace (0xdc00 + r - 0xdc00) with r by lia.
    rewrite N.shiftl_mul_pow2. change (2 ^ 10) with 1024.
    rewrite lor_disjoint_add by (by apply land_mul_1024).
    lia.
Qed.

Lemma scanstring_u_escape (c : N) (T : str) :
  c < 0x10000 ->
  (is_high_surrogate c = true -> lookahead_ok T) ->
  scanstring (u_escape c ++ T) = push c (scanstring T).
Proof.
  intros Hc Hnext.
  destruct (decode_u_escape c T Hc) as (h3 & h2 & h1 & h0 & -> & Hdec).
  cbn -[decode_uXXXX is_high_surrogate is_low_surrogate]. rewrite Hdec.
  destruct T as [| b [| e2 r2']]; try reflexivity.
  destruct (is_high_surrogate c) eqn:Hhigh; cbn [andb]; [| reflexivity].
  destruct ((b =? 92) && (e2 =? 117)) eqn:Hesc; [| reflexivity].
  destruct (Hnext eq_refl Hesc) as (k1 & k2 & k3 & k4 & r3 & uni2 & -> & Hdec2 & Hlow).
  by rewrite Hdec2, Hlow.
Qed.

Lemma scanstring_pair (c : N) (T : str) :
  0x10000 <= c < 0x110000 ->
  scanstring
    (u_escape (N.lor 0xd800 (N.land (N.shiftr (c - 0x10000) 10) 0x3ff)) ++
     u_escape (N.lor 0xdc00 (N.land (c - 0x10000) 0x3ff)) ++ T) =
  push c (scanstring T).
Proof.
  intros Hc.
  destruct (surrogate_pair c Hc) as (Hhi & Hlo & Hhigh & Hlow & Heq).
  set (hi := N.lor 0xd800 _) in *. set (lo := N.lor 0xdc00 _) in *.
  clearbody hi lo.
  destruct (decode_u_escape lo T Hlo) as (k3 & k2 & k1 & k0 & -> & Hdec2).
  destruct (decode_u_escape hi (92 :: 117 :: k3 :: k2 :: k1 :: k0 :: T) Hhi)
    as (h3 & h2 & h1 & h0 & -> & Hdec).
  cbn -[decode_uXXXX is_high_surrogate is_low_surrogate N.lor N.shiftl N.sub N.add].
  by rewrite Hdec, Hhigh, Hdec2, Hlow, Heq.
Qed.

Lemma scanstring_short (e ch : N) (T : str) :
  e <> 117 -> BACKSLASH e = Some ch ->
  scanstring (92 :: e :: T) = push ch (scanstring T).
Proof.
  intros He Hch. cbn -[BACKSLASH].
  destruct (N.eqb_spec e 117); [done |]. by rewrite Hch.
Qed.

Lemma scanstring_plain (c : N) (T : str) :
  c <> 34 -> c <> 92 -> 32 <= c ->
  scanstring (c :: T) = push c (scanstring T).
Proof.
  intros H34 H92 H32. cbn.
  destruct (N.eqb_spec c 34); [done |].
  destruct (N.eqb_spec c 92); [done |].
  destruct (N.ltb_spec c 32); [lia | done].
Qed.

Lemma escape_cp_shape (c : N) : is_codepoint c -> escape_shape c (escape_cp c).
Proof.
  unfold is_codepoint, escape_cp. intros Hc.
  destruct (N.eqb_spec c 34) as [-> |]; [by apply shape_short |].
  destruct (N.eqb_spec c 92) as [-> |]; [by apply shape_short |].
  destruct (N.eqb_spec c 10) as [-> |]; [by apply shape_short |].
  destruct (N.eqb_spec c 13) as [-> |]; [by apply shape_short |].
  destruct (N.eqb_spec c 9) as [-> |]; [by apply shape_short |].
  destruct (N.eqb_spec c 8) as [-> |]; [by apply shape_short |].
  destruct (N.eqb_spec c 12) as [-> |]; [by apply shape_short |].
  destruct (N.leb_spec 32 c); cbn [andb].
  - destruct (N.leb_spec c 126); [by apply shape_plain |].
    destruct (N.ltb_spec c 0x10000); [by apply shape_u |].
    apply shape_pair. lia.
  - destruct (N.ltb_spec c 0x10000); [by apply shape_u | lia].
Qed.

Lemma scanstring_escape_cp (c : N) (T : str) :
  is_codepoint c ->
  (is_high_surrogate c = true -> lookahead_ok T) ->
  scanstring (escape_cp c ++ T) = push c (scanstring T).
Proof.
  intros Hc Hnext. destruct (escape_cp_shape c Hc).
  - by apply scanstring_short.
  - by apply scanstring_plain.
  - by apply scanstring_u_escape.
  - rewrite <- app_assoc. by apply scanstring_pair.
Qed.

(** After a code point that is not a low surrogate, or at the end of
    the text, the look-ahead finds nothing to join. *)
Lemma lookahead_escaped (s rest : str) :
  is_str s ->
  match s with c :: _ => is_low_surrogate c = false | [] => True end ->
  lookahead_ok (flat_map escape_cp s ++ 34 :: rest).
Proof.
  intros Hs Hhead. destruct s as [| c s]; [cbn; by destruct rest |].
  apply Forall_cons in Hs as [Hc _]. cbn [flat_map].
  rewrite <- app_assoc.
  destruct (escape_cp_shape c Hc) as [e He _ | H34 H92 _ | Hlt | Hge].
  - cbn. destruct (N.eqb_spec e 117); done.
  - cbn. destruct (N.eqb_spec c 92); [done |]. by destruct (_ ++ _) as [| ? ?].
  - destruct (decode_u_escape c (flat_map escape_cp s ++ 34 :: rest) Hlt)
      as (h3 & h2 & h1 & h0 & -> & Hdec).
    intros _. by exists h3, h2, h1, h0, (flat_map escape_cp s ++ 34 :: rest), c.
  - destruct (surrogate_pair c Hge) as (Hhi & Hlo & Hhigh & Hlow & Heq).
    set (hi := N.lor 0xd800 _) in *. clearbody hi. rewrite <- app_assoc.
    destruct (decode_u_escape hi
                (u_escape (N.lor 0xdc00 (N.land (c - 0x10000) 0x3ff)) ++
                 flat_map escape_cp s ++ 34 :: rest) Hhi)
      as (h3 & h2 & h1 & h0 & -> & Hdec).
    intros _. do 6 eexists. split; [reflexivity |]. split; [exact Hdec |].
    unfold is_high_surrogate, is_low_surrogate in *.
    apply andb_true_iff in Hhigh as [_ Hle%N.leb_le].
    apply andb_false_iff. left. apply N.leb_gt. lia.
Qed.

Lemma scanstring_escaped (s rest : str) :
  is_str s -> no_surrogate_pair s = true ->
  scanstring (flat_map escape_cp s ++ 34 :: rest) = Some (s, rest).
Proof.
  induction s as [| c s IH]; intros Hs Hpair; [done |].
  apply Forall_cons in Hs as [Hc Hs].
  cbn [no_surrogate_pair] in Hpair. apply andb_true_iff in Hpair as [Hhead Hpair].
  cbn [flat_map]. rewrite <- app_assoc, scanstring_escape_cp, IH; try done.
  intros Hhigh. apply lookahead_escaped; [done |].
  destruct s as [| c' s]; [done |].
  rewrite Hhigh in Hhead. by destruct (is_low_surrogate c').
Qed.

Lemma scanstring_encoded (s rest : str) :
  is_str s -> no_surrogate_pair s = true ->
  exists body,
    encode_basestring_ascii s ++ rest = 34 :: body /\
    scanstring body = Some (s, rest).
Proof.
  intros Hs Hpair. exists (flat_map escape_cp s ++ 34 :: rest). split.
  - unfold encode_basestring_ascii. cbn. by rewrite <- app_assoc.
  - by apply scanstring_escaped.
Qed.

(** ** Integers through the encoder and back *)

Lemma uint_of_chars_uint_chars (d : Decimal.uint) :
  uint_of_chars (uint_chars d) = d.
Proof. induction d; cbn; by f_equal. Qed.

Lemma uint_chars_digits (d : Decimal.uint) :
  forallb is_digit (uint_chars d) = true.
Proof. induction d; cbn; done. Qed.

Lemma read_digits_app (ds rest : str) :
  forallb is_digit ds = true ->
  match rest with c :: _ => is_digit c = false | [] => True end ->
  read_digits (ds ++ rest) = (ds, rest).
Proof.
  intros Hds Hrest. induction ds as [| c ds IH]; cbn [app read_digits].
  - destruct rest as [| c r]; [done |]. cbn. by rewrite Hrest.
  - cbn in Hds. apply andb_true_iff in Hds as [-> Hds]. by rewrite IH.
Qed.

(** The decimal digits of a positive number do not start with 0. *)
Lemma pos_to_uint_unorm (p : positive) :
  Decimal.unorm (Pos.to_uint p) = Pos.to_uint p.
Proof.
  rewrite <- (DecimalPos.Unsigned.to_of (Pos.to_uint p)).
  by rewrite DecimalPos.Unsigned.of_to.
Qed.

Lemma pos_to_uint_head (p : positive) :
  exists c cs,
    uint_chars (Pos.to_uint p) = c :: cs /\ c <> 48 /\ c <> 45 /\
    is_digit c = true.
Proof.
  pose proof (pos_to_uint_unorm p) as Hnorm.
  pose proof (DecimalPos.Unsigned.to_uint_nonzero p) as Hnz.
  pose proof (DecimalPos.Unsigned.to_uint_nonnil p) as Hnn.
  destruct (Pos.to_uint p) as [| d | d | d | d | d | d | d | d | d | d] eqn:E;
    try done; try (eexists _, _; cbn; split; [reflexivity | done]).
  exfalso. unfold Decimal.unorm in Hnorm. cbn [Decimal.nzhead] in Hnorm.
  destruct (Decimal.nzhead d) eqn:Hd; try done.
  by apply DecimalFacts.nzhead_nonzero in Hd.
Qed.

Lemma match_frac_none (rest : str) : number_end rest -> match_frac rest = ([], rest).
Proof.
  destruct rest as [| c r]; [done |]. intros (_ & H46 & _). cbn.
  by destruct (N.eqb_spec c 46).
Qed.

Lemma match_exp_none (rest : str) : number_end rest -> match_exp rest = ([], rest).
Proof.
  destruct rest as [| c r]; [done |]. intros (_ & _ & H101 & H69). cbn.
  destruct (N.eqb_spec c 101); [done |]. by destruct (N.eqb_spec c 69).
Qed.

Lemma number_end_digit (rest : str) :
  number_end rest -> match rest with c :: _ => is_digit c = false | [] => True end.
Proof. destruct rest; [done |]. by intros (? & _). Qed.

Lemma match_number_int_repr (z : Z) (rest : str) :
  number_end rest -> match_number (int_repr z ++ rest) = Some (JInt z, rest).
Proof.
  intros Hend. unfold int_repr.
  destruct z as [| p | p]; cbn [Z.to_int].
  - unfold match_number. cbn -[match_frac match_exp].
    by rewrite match_frac_none, match_exp_none.
  - destruct (pos_to_uint_head p) as (c & cs & Hp & H48 & H45 & Hdig).
    unfold match_number. rewrite Hp. cbn [app].
    destruct (N.eqb_spec c 45); [done |].
    unfold match_integer. destruct (N.eqb_spec c 48); [done |]. rewrite Hdig.
    change (c :: cs ++ rest) with ((c :: cs) ++ rest).
    rewrite <- Hp, read_digits_app
      by (apply uint_chars_digits || by apply number_end_digit).
    rewrite match_frac_none, match_exp_none by done.
    by rewrite uint_of_chars_uint_chars, <- (DecimalZ.of_to (Z.pos p)).
  - destruct (pos_to_uint_head p) as (c & cs & Hp & H48 & H45 & Hdig).
    unfold match_number. cbn [app N.eqb Pos.eqb]. rewrite Hp. cbn [app].
    unfold match_integer. destruct (N.eqb_spec c 48); [done |]. rewrite Hdig.
    change (c :: cs ++ rest) with ((c :: cs) ++ rest).
    rewrite <- Hp, read_digits_app
      by (apply uint_chars_digits || by apply number_end_digit).
    rewrite match_frac_none, match_exp_none by done.
    by rewrite uint_of_chars_uint_chars, <- (DecimalZ.of_to (Z.neg p)).
Qed.

Lemma int_repr_head (z : Z) :
  exists c cs, int_repr z = c :: cs /\ (c = 45 \/ is_digit c = true).
Proof.
  unfold int_repr. destruct z as [| p | p]; cbn [Z.to_int].
  - by eexists _, _; split; [reflexivity | right].
  - destruct (pos_to_uint_head p) as (c & cs & -> & _ & _ & Hdig). eauto.
  - eexists _, _. split; [reflexivity | by left].
Qed.

(** ** Values through the encoder and back *)

Lemma skip_ws_spaces (n : nat) (T : str) : skip_ws (repeat 32 n ++ T) = skip_ws T.
Proof. induction n; [done |]. cbn. done. Qed.

Lemma skip_ws_newline_indent (indent level : nat) (T : str) :
  skip_ws (newline_indent indent level ++ T) = skip_ws T.
Proof. unfold newline_indent. cbn [app skip_ws is_ws N.eqb Pos.eqb orb]. apply skip_ws_spaces. Qed.

Lemma skip_ws_id (c : N) (T : str) : is_ws c = false -> skip_ws (c :: T) = c :: T.
Proof. intros H. cbn. by rewrite H. Qed.

Lemma is_ws_cases (c : N) : is_ws c = true -> c = 32 \/ c = 9 \/ c = 10 \/ c = 13.
Proof.
  unfold is_ws. rewrite !orb_true_iff, !N.eqb_eq. tauto.
Qed.

(** No value starts with white space or with a closing bracket. *)
Lemma scan_once_head (f : nat) (c : N) (r : str) (v : json) (rest : str) :
  scan_once f (c :: r) = Parsed v rest -> is_ws c = false /\ c <> 93.
Proof.
  intros H. destruct f as [| f]; [done |].
  split.
  - destruct (is_ws c) eqn:Hws; [| done].
    apply is_ws_cases in Hws as [-> | [-> | [-> | ->]]]; by cbn in H.
  - intros ->. by cbn in H.
Qed.

Lemma scans_back_head (F level : nat) (v : json) :
  scans_back F level v ->
  exists c r, iterencode 4 level v = c :: r /\ is_ws c = false /\ c <> 93.
Proof.
  intros Hv. specialize (Hv F [] ltac:(lia) I). rewrite app_nil_r in Hv.
  destruct (iterencode 4 level v) as [| c r].
  - by destruct F.
  - exists c, r. split; [done |]. by eapply scan_once_head.
Qed.

Lemma startswith_head (c : N) (T lit : str) :
  match lit with x :: _ => x <> c | [] => False end ->
  startswith (c :: T) lit = false.
Proof.
  destruct lit as [| x lit]; [done |]. intros Hx. cbn.
  by destruct (N.eqb_spec x c).
Qed.

Lemma scans_back_str (level : nat) (s : str) :
  is_str s -> no_surrogate_pair s = true -> scans_back 1 level (JStr s).
Proof.
  intros Hs Hpair f rest Hf _. destruct f as [| f]; [lia |].
  destruct (scanstring_encoded s rest Hs Hpair) as (body & Hbody & Hscan).
  cbn [iterencode]. rewrite Hbody. cbn [scan_once N.eqb Pos.eqb]. by rewrite Hscan.
Qed.

Lemma scans_back_int (level : nat) (z : Z) : scans_back 1 level (JInt z).
Proof.
  intros f rest Hf Hend. destruct f as [| f]; [lia |].
  cbn [iterencode].
  pose proof (match_number_int_repr z rest Hend) as Hnum.
  destruct (int_repr_head z) as (c & cs & Hz & Hc). rewrite Hz in *.
  cbn [app] in *. cbn [scan_once].
  assert (is_digit c = true -> 48 <= c <= 57) as Hdig.
  { unfold is_digit. intros [?%N.leb_le ?%N.leb_le]%andb_true_iff. lia. }
  assert (c = 45 \/ 48 <= c <= 57) as Hrange by (destruct Hc; [by left | right; auto]).
  destruct (N.eqb_spec c 34); [lia |].
  destruct (N.eqb_spec c 123); [lia |].
  destruct (N.eqb_spec c 91); [lia |].
  rewrite !startswith_head by (vm_compute; lia). by rewrite Hnum.
Qed.

Lemma number_end_more_items (closing : N) (level : nat) (items : list str) (rest : str) :
  number_end (more_items closing 4 level items ++ rest).
Proof.
  unfold more_items, newline_indent, number_end.
  destruct items; cbn [flat_map app]; repeat split; (reflexivity || lia).
Qed.

Lemma more_items_cons (closing : N) (level : nat) (i : str) (items : list str) :
  more_items closing 4 level (i :: items) =
  44 :: newline_indent 4 (S level) ++ i ++ more_items closing 4 level items.
Proof.
  unfold more_items. cbn [flat_map app]. f_equal. by rewrite <- !app_assoc.
Qed.

Lemma encode_items_cons (opening closing : N) (level : nat) (i : str) (items : list str) :
  encode_items opening closing 4 level (i :: items) =
  opening :: newline_indent 4 (S level) ++ i ++ more_items closing 4 level items.
Proof. reflexivity. Qed.

Lemma elements_S (f : nat) (s : str) :
  elements (S f) s =
  match scan_once f s with
  | Parsed v s1 =>
      match skip_ws s1 with
      | c :: s2 =>
          if c =? 93 then Parsed [v] s2
          else if c =? 44 then
            match elements f (skip_ws s2) with
            | Parsed vs rest => Parsed (v :: vs) rest
            | DecodeError => DecodeError
            | OutOfFuel => OutOfFuel
            end
          else DecodeError
      | [] => DecodeError
      end
  | DecodeError => DecodeError
  | OutOfFuel => OutOfFuel
  end.
Proof. reflexivity. Qed.

Lemma elements_encoded (F level : nat) (vs : list json) :
  Forall (scans_back F (S level)) vs ->
  forall (v0 : json) (f : nat) (rest : str),
    scans_back F (S level) v0 ->
    (F + S (length vs) <= f)%nat ->
    elements f (iterencode 4 (S level) v0 ++
                more_items 93 4 level (map (iterencode 4 (S level)) vs) ++ rest) =
    Parsed (v0 :: vs) rest.
Proof.
  induction 1 as [| v1 vs Hv1 Hvs IH]; intros v0 f rest Hv0 Hf;
    (destruct f as [| f]; [lia |]); rewrite elements_S.
  - rewrite Hv0 by (lia || apply number_end_more_items).
    unfold more_items. cbn [map flat_map app].
    rewrite <- app_assoc, skip_ws_newline_indent. done.
  - rewrite Hv0 by (lia || apply number_end_more_items).
    cbn [map]. rewrite more_items_cons. cbn [app skip_ws is_ws N.eqb Pos.eqb orb].
    rewrite <- !app_assoc, skip_ws_newline_indent.
    destruct (scans_back_head _ _ _ Hv1) as (c & r & Hhead & Hws & _).
    rewrite Hhead. cbn [app]. rewrite skip_ws_id by done.
    change (c :: r ++ ?T) with ((c :: r) ++ T). rewrite <- Hhead.
    rewrite IH by (done || cbn [length] in Hf; lia). done.
Qed.

Lemma members_S (f : nat) (s : str) :
  members (S f) s =
  match scanstring s with
  | None => DecodeError
  | Some (key, s1) =>
      match skip_ws s1 with
      | c :: s2 =>
          if c =? 58 then
            match scan_once f (skip_ws s2) with
            | Parsed v s3 =>
                match skip_ws s3 with
                | c' :: s4 =>
                    if c' =? 125 then Parsed [(key, v)] s4
                    else if c' =? 44 then
                      match skip_ws s4 with
                      | q :: s5 =>
                          if q =? 34 then
                            match members f s5 with
                            | Parsed pairs rest => Parsed ((key, v) :: pairs) rest
                            | DecodeError => DecodeError
                            | OutOfFuel => OutOfFuel
                            end
                          else DecodeError
                      | [] => DecodeError
                      end
                    else DecodeError
                | [] => DecodeError
                end
            | DecodeError => DecodeError
            | OutOfFuel => OutOfFuel
            end
          else DecodeError
      | [] => DecodeError
      end
  end.
Proof. reflexivity. Qed.

Lemma encode_pair_app (level : nat) (k : str) (v : json) (T : str) :
  encode_pair 4 level (k, v) ++ T =
  34 :: flat_map escape_cp k ++ 34 :: 58 :: 32 :: iterencode 4 (S level) v ++ T.
Proof.
  unfold encode_pair, encode_basestring_ascii. cbn [fst snd app].
  f_equal. by rewrite <- !app_assoc.
Qed.

Lemma members_encoded (F level : nat) (ps : list (str * json)) :
  Forall (pair_ok F level) ps ->
  forall (kv0 : str * json) (f : nat) (rest : str),
    pair_ok F level kv0 ->
    (F + S (length ps) <= f)%nat ->
    members f (flat_map escape_cp (fst kv0) ++
               34 :: 58 :: 32 :: iterencode 4 (S level) (snd kv0) ++
               more_items 125 4 level (map (encode_pair 4 level) ps) ++ rest) =
    Parsed (kv0 :: ps) rest.
Proof.
  induction 1 as [| [k1 v1] ps Hkv1 Hps IH];
    intros [k0 v0] f rest (Hk0 & Hp0 & Hv0) Hf;
    cbn [fst snd] in Hk0, Hp0, Hv0;
    (destruct f as [| f]; [lia |]); rewrite members_S; cbn [fst snd];
    rewrite scanstring_escaped by done;
    cbn [skip_ws is_ws N.eqb Pos.eqb orb];
    destruct (scans_back_head _ _ _ Hv0) as (c & r & Hhead & Hws & _);
    rewrite Hhead; cbn [app]; rewrite skip_ws_id by done;
    change (c :: r ++ ?T) with ((c :: r) ++ T); rewrite <- Hhead;
    rewrite Hv0 by (lia || apply number_end_more_items).
  - unfold more_items. cbn [map flat_map app].
    rewrite <- app_assoc, skip_ws_newline_indent. done.
  - cbn [map]. rewrite more_items_cons. cbn [app skip_ws is_ws N.eqb Pos.eqb orb].
    rewrite <- !app_assoc, skip_ws_newline_indent, encode_pair_app.
    cbn [skip_ws is_ws N.eqb Pos.eqb orb].
    rewrite (IH (k1, v1)) by (done || cbn [length] in Hf; lia). done.
Qed.

Lemma scan_once_array (f : nat) (r : str) :
  scan_once (S f) (91 :: r) =
  match skip_ws r with
  | c1 :: r1 =>
      if c1 =? 93 then Parsed (JArr []) r1
      else
        match elements f (c1 :: r1) with
        | Parsed vs rest => Parsed (JArr vs) rest
        | DecodeError => DecodeError
        | OutOfFuel => OutOfFuel
        end
  | [] => DecodeError
  end.
Proof. reflexivity. Qed.

Lemma scan_once_object (f : nat) (r : str) :
  scan_once (S f) (123 :: r) =
  match skip_ws r with
  | c1 :: r1 =>
      if c1 =? 125 then Parsed (JObj []) r1
      else if c1 =? 34 then
        match members f r1 with
        | Parsed pairs rest => Parsed (JObj (dict pairs)) rest
        | DecodeError => DecodeError
        | OutOfFuel => OutOfFuel
        end
      else DecodeError
  | [] => DecodeError
  end.
Proof. reflexivity. Qed.

Lemma iterencode_arr (level : nat) (vs : list json) :
  iterencode 4 level (JArr vs) =
  encode_items 91 93 4 level (map (iterencode 4 (S level)) vs).
Proof. reflexivity. Qed.

Lemma iterencode_obj (level : nat) (ps : list (str * json)) :
  iterencode 4 level (JObj ps) =
  encode_items 123 125 4 level (map (encode_pair 4 level) ps).
Proof. reflexivity. Qed.

Lemma scans_back_arr (F level : nat) (vs : list json) :
  Forall (scans_back F (S level)) vs ->
  scans_back (F + length vs + 1) level (JArr vs).
Proof.
  intros Hvs f rest Hf _. destruct f as [| f]; [lia |].
  rewrite iterencode_arr. destruct vs as [| v0 vs].
  - done.
  - apply Forall_cons in Hvs as [Hv0 Hvs].
    cbn [map]. rewrite encode_items_cons. cbn [app]. rewrite scan_once_array.
    rewrite <- !app_assoc, skip_ws_newline_indent.
    destruct (scans_back_head _ _ _ Hv0) as (c & r & Hhead & Hws & H93).
    rewrite Hhead. cbn [app]. rewrite skip_ws_id by done.
    destruct (N.eqb_spec c 93); [done |].
    change (c :: r ++ ?T) with ((c :: r) ++ T). rewrite <- Hhead.
    rewrite (elements_encoded F) by (done || cbn [length] in Hf; lia). done.
Qed.

Lemma scans_back_obj (F level : nat) (ps : list (str * json)) :
  Forall (pair_ok F level) ps -> dict ps = ps ->
  scans_back (F + length ps + 1) level (JObj ps).
Proof.
  intros Hps Hdict f rest Hf _. destruct f as [| f]; [lia |].
  rewrite iterencode_obj. destruct ps as [| [k0 v0] ps].
  - done.
  - apply Forall_cons in Hps as [Hkv0 Hps].
    cbn [map]. rewrite encode_items_cons. cbn [app]. rewrite scan_once_object.
    rewrite <- !app_assoc, skip_ws_newline_indent, encode_pair_app.
    cbn [skip_ws is_ws N.eqb Pos.eqb orb].
    rewrite (members_encoded F level ps Hps (k0, v0))
      by (done || cbn [length] in Hf; lia).
    by rewrite Hdict.
Qed.

(** ** The catalog through the backing file and back *)

Lemma wf_text_u_ascii (s : str) :
  forallb (fun c => c <? 128) s = true -> wf_text s.
Proof.
  intros Hs. split.
  - apply Forall_forall. intros c Hc%list_elem_of_In.
    rewrite forallb_forall in Hs. apply Hs, N.ltb_lt in Hc.
    unfold is_codepoint. lia.
  - induction s as [| a s IH]; [done |].
    cbn in Hs. apply andb_true_iff in Hs as [Ha%N.ltb_lt Hs].
    cbn [no_surrogate_pair]. rewrite IH by done.
    destruct s; [done |]. unfold is_high_surrogate.
    replace (0xd800 <=? a) with false by (symmetry; apply N.leb_gt; lia). done.
Qed.

Lemma pair_ok_str (level : nat) (k s : str) :
  forallb (fun c => c <? 128) k = true -> wf_text s ->
  pair_ok 1 level (k, JStr s).
Proof.
  intros [Hk1 Hk2]%wf_text_u_ascii [Hs1 Hs2]. repeat split; [done | done |].
  by apply scans_back_str.
Qed.

Lemma pair_ok_int (level : nat) (k : str) (z : Z) :
  forallb (fun c => c <? 128) k = true -> pair_ok 1 level (k, JInt z).
Proof.
  intros [Hk1 Hk2]%wf_text_u_ascii. repeat split; [done | done |].
  apply scans_back_int.
Qed.

Lemma Book_dict_pairs_ok (b : Book) (level : nat) :
  wf_book b -> Forall (pair_ok 1 level) (Book_dict b).
Proof.
  intros (Ht & Ha & Hi & Hg & Hd & Hs). unfold Book_dict.
  repeat (apply Forall_cons_2); try apply Forall_nil_2.
  all: first [ by apply pair_ok_int | by apply pair_ok_str ].
Qed.

Lemma dict_Book_dict (b : Book) : dict (Book_dict b) = Book_dict b.
Proof. reflexivity. Qed.

Lemma Book_dict_scans_back (b : Book) (level : nat) :
  wf_book b -> scans_back 9 level (JObj (Book_dict b)).
Proof.
  intros Hb.
  apply (scans_back_obj 1 level (Book_dict b));
    [by apply Book_dict_pairs_ok | apply dict_Book_dict].
Qed.

Lemma catalog_value_scans_back (bs : list Book) :
  Forall wf_book bs -> scans_back (9 + length bs + 1) 0 (catalog_value bs).
Proof.
  intros Hbs. unfold catalog_value.
  rewrite <- (length_map (fun b => JObj (Book_dict b))).
  apply scans_back_arr. apply Forall_map, Forall_forall.
  intros b Hb. apply Book_dict_scans_back.
  rewrite Forall_forall in Hbs. by apply Hbs.
Qed.

Lemma more_items_length (closing : N) (level : nat) (items : list str) :
  (length items + 2 <= length (more_items closing 4 level items))%nat.
Proof.
  unfold more_items. rewrite length_app.
  assert (length items <=
          length (flat_map (fun i => 44%N :: newline_indent 4 (S level) ++ i) items))%nat.
  { induction items as [| i items IH]; [done |].
    cbn [flat_map length app]. rewrite length_app. lia. }
  unfold newline_indent at 2. cbn [length app]. rewrite length_app. cbn [length]. lia.
Qed.

Lemma catalog_text_fuel (b : Book) (bs : list Book) :
  (9 + length (b :: bs) + 1 <= loads_fuel (catalog_text (b :: bs)))%nat.
Proof.
  unfold loads_fuel, catalog_text, catalog_value, dumps. cbn [iterencode map].
  rewrite encode_items_cons. cbn [length]. rewrite !length_app.
  pose proof (more_items_length 93 0
                (map (iterencode 4 1) (map (fun b => JObj (Book_dict b)) bs))) as Hmore.
  rewrite !length_map in Hmore.
  change (length (newline_indent 4 1)) with 5%nat. lia.
Qed.

Lemma loads_catalog_text (bs : list Book) :
  Forall wf_book bs -> loads (catalog_text bs) = Parsed (catalog_value bs) [].
Proof.
  intros Hbs. destruct bs as [| b bs]; [done |].
  pose proof (catalog_value_scans_back _ Hbs (loads_fuel (catalog_text (b :: bs))) []
                (catalog_text_fuel b bs) I) as Hscan.
  rewrite app_nil_r in Hscan. unfold loads.
  change (catalog_text (b :: bs)) with (iterencode 4 0 (catalog_value (b :: bs))) in *.
  assert (skip_ws (iterencode 4 0 (catalog_value (b :: bs))) =
          iterencode 4 0 (catalog_value (b :: bs))) as ->.
  { unfold catalog_value. rewrite iterencode_arr. cbn [map]. by rewrite encode_items_cons. }
  by rewrite Hscan.
Qed.

Lemma Book_of_Book_dict (b : Book) : Book_of (JObj (Book_dict b)) = Done b.
Proof. by destruct b. Qed.

Lemma Books_of_catalog (bs : list Book) :
  Books_of (map (fun b => JObj (Book_dict b)) bs) = Done bs.
Proof.
  induction bs as [| b bs IH]; [done |].
  cbn [map Books_of]. by rewrite Book_of_Book_dict, IH.
Qed.

Lemma save_library_file (m : LibraryManager) (w : World) :
  fs (save_library m w) !! data_file m = Some (catalog_text (books m)).
Proof. unfold save_library, write_file. cbn. apply lookup_insert_eq. Qed.

(** The round trip on well-formed catalogs: [load_library] run on the
    file that [save_library] wrote gives the manager back and changes
    nothing in the world. *)
Lemma load_after_save (m : LibraryManager) (w : World) :
  Forall wf_book (books m) ->
  load_library m (save_library m w) = Done (m, save_library m w).
Proof.
  intros Hbs. unfold load_library.
  rewrite save_library_file, loads_catalog_text by done.
  cbn [iter catalog_value]. rewrite Books_of_catalog. by destruct m.
Qed.

(** ** The decoder always finishes *)

Lemma skip_ws_length (s : str) : (length (skip_ws s) <= length s)%nat.
Proof.
  induction s as [| c r IH]; [done |]. cbn [skip_ws].
  destruct (is_ws c); cbn [length]; lia.
Qed.

Lemma skip_ws_cons_length (s : str) (c : N) (r : str) :
  skip_ws s = c :: r -> (length r < length s)%nat.
Proof.
  intros H. pose proof (skip_ws_length s) as Hle. rewrite H in Hle.
  cbn [length] in Hle. lia.
Qed.

Lemma push_Some (c : N) (o : option (str * str)) (x rest : str) :
  push c o = Some (x, rest) -> exists x', o = Some (x', rest).
Proof. destruct o as [[x' rest'] |]; [| done]. intros [= _ ->]. eauto. Qed.

Ltac split_scrutinee H :=
  match type of H with
  | context [if ?b then _ else _] => destruct b eqn:?
  | context [match ?l with [] => _ | _ :: _ => _ end] => destruct l eqn:?
  | context [match ?o with Some _ => _ | None => _ end] => destruct o eqn:?
  | context [match ?p with (_, _) => _ end] => destruct p eqn:?
  | context [match ?p with Parsed _ _ => _ | DecodeError => _ | OutOfFuel => _ end] =>
      destruct p eqn:?
  end.

Lemma scanstring_length_aux (n : nat) :
  forall s x rest,
    (length s <= n)%nat -> scanstring s = Some (x, rest) ->
    (length rest < length s)%nat.
Proof.
  induction n as [| n IH]; intros s x rest Hlen H.
  - destruct s; [done | cbn in Hlen; lia].
  - destruct s as [| c r]; [done |]. cbn [scanstring] in H.
    repeat split_scrutinee H; subst; try discriminate H.
    all: cbn [length] in *.
    all: try (injection H as _ <-; cbn [length]; lia).
    all: apply push_Some in H as [x' H]; apply IH in H; cbn [length] in *; lia.
Qed.

Lemma scanstring_length (s x rest : str) :
  scanstring s = Some (x, rest) -> (length rest < length s)%nat.
Proof. by apply (scanstring_length_aux (length s)). Qed.

Lemma read_digits_length (s ds rest : str) :
  read_digits s = (ds, rest) -> (length ds + length rest = length s)%nat.
Proof.
  revert ds rest. induction s as [| c r IH]; intros ds rest H; cbn [read_digits] in H.
  - by injection H as <- <-.
  - destruct (is_digit c).
    + destruct (read_digits r) as [ds' rest'] eqn:E. injection H as <- <-.
      specialize (IH _ _ eq_refl). cbn [length]. lia.
    + by injection H as <- <-.
Qed.

Lemma match_integer_length (s ds rest : str) :
  match_integer s = Some (ds, rest) -> (length rest < length s)%nat.
Proof.
  destruct s as [| c r]; [done |]. unfold match_integer.
  destruct (c =? 48); [intros [= _ <-]; cbn; lia |].
  destruct (is_digit c) eqn:Hc; [| done].
  intros [= H]. cbn [read_digits] in H. rewrite Hc in H.
  destruct (read_digits r) as [ds' rest'] eqn:E. injection H as _ <-.
  apply read_digits_length in E. cbn [length]. lia.
Qed.

Lemma match_frac_length (s fr rest : str) :
  match_frac s = (fr, rest) -> (length rest <= length s)%nat.
Proof.
  destruct s as [| c r]; [by intros [= _ <-] |]. unfold match_frac.
  destruct (c =? 46); [| by intros [= _ <-]].
  destruct (read_digits r) as [[| d ds] rest'] eqn:E; intros [= _ <-]; [done |].
  apply read_digits_length in E. cbn [length] in *. lia.
Qed.

Lemma match_exp_length (s ex rest : str) :
  match_exp s = (ex, rest) -> (length rest <= length s)%nat.
Proof.
  destruct s as [| c r]; [by intros [= _ <-] |]. unfold match_exp.
  destruct ((c =? 101) || (c =? 69)); [| by intros [= _ <-]].
  destruct r as [| x r0]; [| destruct ((x =? 45) || (x =? 43))]; cbv beta iota;
    (destruct (read_digits _) as [[| d ds] rest'] eqn:E; intros [= _ <-];
     [done |]);
    apply read_digits_length in E; cbn [length] in *; lia.
Qed.

Lemma match_number_length (s : str) (v : json) (rest : str) :
  match_number s = Some (v, rest) -> (length rest < length s)%nat.
Proof.
  unfold match_number.
  set (p := match s with
            | c :: r => if c =? 45 then (true, r) else (false, s)
            | [] => (false, s)
            end).
  assert (length (snd p) <= length s)%nat as Hp.
  { unfold p. destruct s as [| c r]; [done |].
    destruct (c =? 45); cbn [snd length]; lia. }
  destruct p as [negative s1]. cbn [snd] in Hp.
  destruct (match_integer s1) as [[ds s2] |] eqn:Hint; [| done].
  apply match_integer_length in Hint.
  destruct (match_frac s2) as [fr s3] eqn:Hfr. apply match_frac_length in Hfr.
  destruct (match_exp s3) as [ex s4] eqn:Hex. apply match_exp_length in Hex.
  destruct fr, ex; intros [= _ <-]; lia.
Qed.

(** Collects what is known about the lengths of the texts in the
    context: white space skipped, strings and numbers read, and values
    read by the calls for which a hypothesis on their lengths is there. *)
Ltac lengths :=
  repeat match goal with
    | E : skip_ws _ = _ :: _ |- _ => apply skip_ws_cons_length in E
    | E : scanstring _ = Some _ |- _ => apply scanstring_length in E
    | E : match_number _ = Some _ |- _ => apply match_number_length in E
    | IH : forall s v rest, scan_once ?f s = Parsed v rest -> _,
      E : scan_once ?f _ = Parsed _ _ |- _ => apply IH in E
    | IH : forall s ps rest, members ?f s = Parsed ps rest -> _,
      E : members ?f _ = Parsed _ _ |- _ => apply IH in E
    | IH : forall s vs rest, elements ?f s = Parsed vs rest -> _,
      E : elements ?f _ = Parsed _ _ |- _ => apply IH in E
    end;
  repeat match goal with
    | E : context [skip_ws ?a] |- _ =>
        lazymatch goal with
        | _ : (length (skip_ws a) <= length a)%nat |- _ => fail
        | _ => pose proof (skip_ws_length a)
        end
    | |- context [skip_ws ?a] =>
        lazymatch goal with
        | _ : (length (skip_ws a) <= length a)%nat |- _ => fail
        | _ => pose proof (skip_ws_length a)
        end
    | |- context [drop ?n ?a] =>
        lazymatch goal with
        | _ : (length (drop n a) <= length a)%nat |- _ => fail
        | _ => assert (length (drop n a) <= length a)%nat
                 by (rewrite length_drop; lia)
        end
    end;
  cbn [length] in *.

(** Every value read takes at least one character. *)
Lemma scan_consumes (f : nat) :
  (forall s v rest, scan_once f s = Parsed v rest -> (length rest < length s)%nat) /\
  (forall s ps rest, members f s = Parsed ps rest -> (length rest < length s)%nat) /\
  (forall s vs rest, elements f s = Parsed vs rest -> (length rest < length s)%nat).
Proof.
  induction f as [| f (IHscan & IHmem & IHelt)]; [done |].
  repeat split.
  - intros s v rest H. destruct s as [| c r]; [done |]. cbn [scan_once] in H.
    repeat split_scrutinee H; try discriminate H;
      injection H as _ <-; cbn [drop]; lengths; lia.
  - intros s ps rest H. rewrite members_S in H.
    repeat split_scrutinee H; try discriminate H;
      injection H as _ <-; lengths; lia.
  - intros s vs rest H. rewrite elements_S in H.
    repeat split_scrutinee H; try discriminate H;
      injection H as _ <-; lengths; lia.
Qed.

Ltac out_of_fuel :=
  match goal with
  | IH : forall s, _ -> scan_once ?f s <> OutOfFuel,
    E : scan_once ?f _ = OutOfFuel |- _ => revert E; apply IH
  | IH : forall s, _ -> members ?f s <> OutOfFuel,
    E : members ?f _ = OutOfFuel |- _ => revert E; apply IH
  | IH : forall s, _ -> elements ?f s <> OutOfFuel,
    E : elements ?f _ = OutOfFuel |- _ => revert E; apply IH
  end;
  lengths; lia.

(** With more fuel than twice the length of the text, the decoder does
    not run out of it. *)
Lemma scan_fuel (f : nat) :
  (forall s, (2 * length s < f)%nat -> scan_once f s <> OutOfFuel) /\
  (forall s, (2 * length s + 1 < f)%nat -> members f s <> OutOfFuel) /\
  (forall s, (2 * length s + 1 < f)%nat -> elements f s <> OutOfFuel).
Proof.
  induction f as [| f (IHscan & IHmem & IHelt)]; [repeat split; intros; lia |].
  destruct (scan_consumes f) as (Cscan & Cmem & Celt).
  repeat split.
  - intros s Hf H. destruct s as [| c r]; [done |]. cbn [scan_once] in H.
    repeat split_scrutinee H; try discriminate H; out_of_fuel.
  - intros s Hf H. rewrite members_S in H.
    repeat split_scrutinee H; try discriminate H; out_of_fuel.
  - intros s Hf H. rewrite elements_S in H.
    repeat split_scrutinee H; try discriminate H; out_of_fuel.
Qed.

(** [loads] always comes to an end: it returns a value or raises
    [JSONDecodeError]. *)
Lemma loads_fuel_enough (s : str) : loads s <> OutOfFuel.
Proof.
  unfold loads. intros H.
  destruct (scan_once (loads_fuel s) (skip_ws s)) as [v rest | |] eqn:E.
  - by destruct (skip_ws rest).
  - done.
  - revert E. apply (proj1 (scan_fuel _)).
    pose proof (skip_ws_length s). unfold loads_fuel. lia.
Qed.

(** ** Saving and loading *)

(** C6, as stated, fails: a catalog whose one record has a title of two
    code points, a high surrogate and a low surrogate, is written as two
    escapes that [load_library] reads back as a single code point; the
    record loaded differs from the record saved. *)
Lemma save_load_joins_surrogates :
  load_library surrogate_manager (save_library surrogate_manager empty_world) =
    Done (with_books surrogate_manager [joined_book],
          save_library surrogate_manager empty_world) /\
  [joined_book] <> books surrogate_manager.
Proof. split; [vm_compute; reflexivity | discriminate]. Qed.

(** C6, amended: for every catalog whose text fields are sequences of
    code points without a high surrogate immediately followed by a low
    surrogate, [load_library] applied to the file that [save_library]
    wrote returns the same manager: the same records, in the same
    order, with all seven fields equal; and loading changes nothing in
    the world. *)
Theorem save_then_load (m : LibraryManager) (w : World) :
  Forall wf_book (books m) ->
  exists m',
    load_library m (save_library m w) = Done (m', save_library m w) /\
    m' = m /\
    length (books m') = length (books m) /\
    (forall k b, books m !! k = Some b -> books m' !! k = Some b).
Proof.
  intros Hwf. exists m. split; [by apply load_after_save | done].
Qed.

(** ** Loading *)

Lemma Books_of_finishes (items : list json) : Books_of items <> Unfinished.
Proof.
  induction items as [| item items IH]; [done |]. cbn [Books_of].
  assert (Book_of item <> Unfinished) as Hitem.
  { destruct item; try done. cbn [Book_of]. unfold Book_of_kwargs.
    repeat case_match; done. }
  destruct (Book_of item); [| done | | done]; by destruct (Books_of items).
Qed.

(** C7, as stated, fails: a backing file that holds valid JSON but not
    a catalog (its one object has a title and nothing else) makes
    [load_library] end with an uncaught [TypeError], not with a report
    and an empty catalog. *)
Lemma load_library_missing_fields :
  fs (world_with missing_fields_text) !! data_file fresh_manager =
    Some missing_fields_text /\
  ~ catalog_content missing_fields_text /\
  load_library fresh_manager (world_with missing_fields_text) = Raised TypeError.
Proof.
  split; [by vm_compute |]. split; [| by vm_compute].
  intros (items & bs & Hloads & Hbooks).
  assert (loads missing_fields_text =
          Parsed (JArr [JObj [(u "title", JStr (u "Dune"))]]) []) as E
    by (by vm_compute).
  rewrite E in Hloads. injection Hloads as <-. by vm_compute in Hbooks.
Qed.

(** C7, amended: when the backing file does not exist, [load_library]
    sets an empty catalog and prints nothing; when the file exists and
    its content is not valid JSON ([json.load] raises
    [JSONDecodeError]), it prints the invalid-file error and sets an
    empty catalog, without raising; and the decoder always comes to an
    end. *)
Theorem load_library_spec (m : LibraryManager) (w : World) :
  (fs w !! data_file m = None ->
   load_library m w = Done (with_books m [], w)) /\
  (forall text,
     fs w !! data_file m = Some text -> loads text = DecodeError ->
     load_library m w =
       Done (with_books m [],
             print (u "Error: Invalid JSON file. Starting with empty library.") w)) /\
  load_library m w <> Unfinished.
Proof.
  unfold load_library. repeat split.
  - by intros ->.
  - by intros text -> ->.
  - destruct (fs w !! data_file m) as [text |]; [| done].
    pose proof (loads_fuel_enough text) as Hfuel.
    destruct (loads text) as [data rest | |]; [| done | done].
    destruct (iter data) as [items |]; [| done].
    pose proof (Books_of_finishes items). by destruct (Books_of items).
Qed.

(** ** The theorems at concrete inputs *)

Lemma orwell_in_two_books : exists b, b ∈ books two_books /\ isbn b = u "111".
Proof. exists orwell. split; [apply list_elem_of_here | reflexivity]. Qed.

Lemma no_999_in_two_books : Forall (fun b => isbn b <> u "999") (books two_books).
Proof. repeat constructor; discriminate. Qed.

Lemma clock_of_empty_world : valid_clock (now empty_world).
Proof. cbn. unfold valid_clock. cbn. lia. Qed.

Lemma add_book_duplicate_isbn_witness :
  (exists b, b ∈ books two_books /\ isbn b = u "111") /\
  exists w',
    add_book (u "Animal Farm") (u "George Orwell") (u "111") (u "Fiction")
             1945 (u "read") two_books empty_world = (two_books, w') /\
    fs w' = fs empty_world.
Proof.
  split; [exact orwell_in_two_books |].
  destruct (add_book_duplicate_isbn (u "Animal Farm") (u "George Orwell")
              (u "111") (u "Fiction") 1945 (u "read") two_books empty_world
              orwell_in_two_books) as (w' & E & Hfs & _).
  exists w'. split; [exact E | exact Hfs].
Defined.

Lemma add_book_fresh_isbn_witness :
  Forall (fun b => isbn b <> u "999") (books two_books) /\
  valid_clock (now empty_world) /\
  exists new_book m' w',
    add_book (u "Dune") (u "Frank Herbert") (u "999") (u "SF") 1965 (u "reading")
             two_books empty_world = (m', w') /\
    books m' = [orwell; gatsby; new_book] /\
    date_added new_book = u "2024-03-07" /\
    is_Ymd (date_added new_book) = true.
Proof.
  split; [exact no_999_in_two_books |]. split; [exact clock_of_empty_world |].
  destruct (add_book_fresh_isbn (u "Dune") (u "Frank Herbert") (u "999") (u "SF")
              1965 (u "reading") two_books empty_world no_999_in_two_books)
    as (nb & m' & w' & E & Hbooks & _ & _ & _ & _ & _ & _ & _ & Hdate & Hform & _).
  exists nb, m', w'. split; [exact E |]. split; [exact Hbooks |].
  split; [exact Hdate | exact (Hform clock_of_empty_world)].
Defined.

Lemma unique_isbn_two_books : unique_isbn (books two_books).
Proof.
  unfold unique_isbn. cbn. apply NoDup_cons. split; [| apply NoDup_singleton].
  by intros ?%list_elem_of_singleton.
Qed.

Lemma unique_isbn_preserved_witness :
  unique_isbn (books two_books) /\
  unique_isbn (books (add_book (u "Dune") (u "Frank Herbert") (u "999") (u "SF")
                               1965 (u "reading") two_books empty_world).1) /\
  unique_isbn (books (remove_book (u "111") two_books empty_world).1) /\
  unique_isbn (books (update_book_status (u "111") (u "read") two_books
                                         empty_world).1).
Proof.
  split; [exact unique_isbn_two_books |].
  destruct (unique_isbn_preserved two_books empty_world unique_isbn_two_books)
    as (Hadd & Hremove & Hupdate).
  split; [apply Hadd |]. split; [apply Hremove | apply Hupdate].
Defined.

Lemma search_books_spec_witness :
  ascii_lower [] = [] /\
  search_books ascii_lower (u "GATSBY") two_books empty_world =
    ([gatsby], two_books, empty_world) /\
  search_books ascii_lower (u "") two_books empty_world =
    ([orwell; gatsby], two_books, empty_world).
Proof.
  split; [reflexivity |].
  destruct (search_books_spec ascii_lower (u "gatsby") two_books empty_world
              eq_refl) as (found & E & _ & Hall & Hcase).
  split; [| exact Hall].
  rewrite (Hcase (u "GATSBY") eq_refl). by injection E as <-.
Defined.

Lemma remove_book_spec_witness :
  (exists b, b ∈ books two_books /\ isbn b = u "111") /\
  Forall (fun b => isbn b <> u "999") (books two_books) /\
  S (length (books (remove_book (u "111") two_books empty_world).1)) =
    length (books two_books) /\
  (remove_book (u "999") two_books empty_world).1 = two_books.
Proof.
  split; [exact orwell_in_two_books |]. split; [exact no_999_in_two_books |].
  split.
  - destruct (proj1 (remove_book_spec (u "111") two_books empty_world)
                orwell_in_two_books)
      as (l1 & b & l2 & m' & w' & _ & _ & _ & E & _ & _ & Hlen & _).
    rewrite E. exact Hlen.
  - destruct (proj2 (remove_book_spec (u "999") two_books empty_world)
                no_999_in_two_books) as (w' & E & _).
    rewrite E. reflexivity.
Defined.

Lemma update_book_status_spec_witness :
  (exists b, b ∈ books two_books /\ isbn b = u "111") /\
  Forall (fun b => isbn b <> u "999") (books two_books) /\
  (exists m' w' b',
     update_book_status (u "111") (u "lent to a friend") two_books empty_world =
       (m', w') /\
     b' ∈ books m' /\ isbn b' = u "111" /\ status b' = u "lent to a friend") /\
  (update_book_status (u "999") (u "read") two_books empty_world).1 = two_books.
Proof.
  split; [exact orwell_in_two_books |]. split; [exact no_999_in_two_books |].
  split.
  - destruct (proj1 (update_book_status_spec (u "111") (u "lent to a friend")
                       two_books empty_world) orwell_in_two_books)
      as (l1 & b & b' & l2 & m' & w' & _ & Hb & _ & E & Hbooks & _ & _ & _ &
          Hisbn & _ & _ & _ & Hstatus & _).
    exists m', w', b'. split; [exact E |]. split.
    + rewrite Hbooks. apply elem_of_app. right. apply list_elem_of_here.
    + split; [by rewrite Hisbn | exact Hstatus].
  - destruct (proj2 (update_book_status_spec (u "999") (u "read") two_books
                       empty_world) no_999_in_two_books) as (w' & E & _).
    rewrite E. reflexivity.
Defined.

Lemma first_111_of_with_copy :
  forall j x, (j < 1)%nat -> books with_copy !! j = Some x -> isbn x <> u "111".
Proof.
  intros j x Hj. destruct j as [| j]; [| lia]. by intros [= <-].
Qed.

Lemma update_book_status_first_only_witness :
  books with_copy !! 1%nat = Some dune /\ isbn dune = u "111" /\
  (forall j x, (j < 1)%nat -> books with_copy !! j = Some x -> isbn x <> u "111") /\
  books (update_book_status (u "111") (u "reading") with_copy empty_world).1
    !! 2%nat = Some dune_copy.
Proof.
  split; [reflexivity |]. split; [reflexivity |].
  split; [exact first_111_of_with_copy |].
  destruct (update_book_status_first_only (u "111") (u "reading") with_copy
              empty_world 1 dune eq_refl eq_refl first_111_of_with_copy)
    as (_ & _ & Hlater & _).
  apply (Hlater 2%nat dune_copy); [lia | reflexivity | reflexivity].
Defined.

Lemma wf_three_books : Forall wf_book (books three_books).
Proof.
  repeat constructor; try (by apply Forall_forall; intros ? ?%not_elem_of_nil).
  all: unfold is_codepoint; lia.
Qed.

Lemma save_then_load_witness :
  Forall wf_book (books three_books) /\
  load_library three_books (save_library three_books empty_world) =
    Done (three_books, save_library three_books empty_world).
Proof.
  split; [exact wf_three_books |].
  destruct (save_then_load three_books empty_world wf_three_books)
    as (m' & E & -> & _).
  exact E.
Defined.

Lemma load_library_spec_witness :
  fs empty_world !! data_file fresh_manager = None /\
  load_library fresh_manager empty_world = Done (fresh_manager, empty_world) /\
  fs (world_with truncated_text) !! data_file fresh_manager = Some truncated_text /\
  loads truncated_text = DecodeError /\
  load_library fresh_manager (world_with truncated_text) =
    Done (fresh_manager,
          print (u "Error: Invalid JSON file. Starting with empty library.")
                (world_with truncated_text)).
Proof.
  assert (fs empty_world !! data_file fresh_manager = None) as Hnone
    by reflexivity.
  assert (fs (world_with truncated_text) !! data_file fresh_manager =
          Some truncated_text) as Hsome by (vm_compute; reflexivity).
  assert (loads truncated_text = DecodeError) as Hbad by (vm_compute; reflexivity).
  split; [exact Hnone |].
  split; [exact (proj1 (load_library_spec fresh_manager empty_world) Hnone) |].
  split; [exact Hsome |]. split; [exact Hbad |].
  exact (proj1 (proj2 (load_library_spec fresh_manager (world_with truncated_text)))
           truncated_text Hsome Hbad).
Defined.

(** ** The scenario of the specification

    Start without a backing file; add a book; add the same isbn again,
    which is rejected; update the status; remove the book: the catalog
    is empty again, and the file was written three times. *)

Example scenario_catalogs :
  let '(after_add, after_second_add, after_update, after_remove, w) := scenario in
  after_add = [orwell] /\
  after_second_add = [orwell] /\
  after_update = [with_status orwell (u "read")] /\
  after_remove = [] /\
  fs w !! library_data_json = Some (u "[]") /\
  length (List.filter (fun e => match e with Write _ _ => true | _ => false end)
                      (events w)) = 3%nat.
Proof. vm_compute. repeat split; reflexivity. Qed.

Example search_gatsby :
  search_books ascii_lower (u "gatsby") two_books empty_world =
    ([gatsby], two_books, empty_world).
Proof. reflexivity. Qed.

(** * Further properties of the program *)

(** ** How the operations compose *)

Lemma add_book_has_isbn (t a i g : str) (y : Z) (st : str)
    (m : LibraryManager) (w : World) :
  exists b, b ∈ books (add_book t a i g y st m w).1 /\ isbn b = i.
Proof.
  unfold add_book. destruct (existsb _ _) eqn:Hex.
  - by apply existsb_isbn in Hex.
  - eexists. split.
    + cbn. apply elem_of_app. right. apply list_elem_of_here.
    + reflexivity.
Qed.

(** X1: [add_book] called again with an isbn that it has just been
    called with is rejected, whatever the other arguments and whatever
    the catalog was before: the manager stays as the first call left
    it. *)
Theorem add_book_again (t a i g : str) (y : Z) (st : str)
    (t' a' g' : str) (y' : Z) (st' : str)
    (m : LibraryManager) (w w' : World) :
  (add_book t' a' i g' y' st' (add_book t a i g y st m w).1 w').1 =
  (add_book t a i g y st m w).1.
Proof.
  pose proof (add_book_has_isbn t a i g y st m w) as Hin.
  apply existsb_isbn in Hin. unfold add_book at 1. by rewrite Hin.
Qed.

(** X2: [remove_book] with the isbn of a book that [add_book] has just
    appended (the isbn was not in the catalog) gives back the manager
    from before the two calls. *)
Theorem remove_book_after_add (t a i g : str) (y : Z) (st : str)
    (m : LibraryManager) (w w' : World) :
  Forall (fun b => isbn b <> i) (books m) ->
  (remove_book i (add_book t a i g y st m w).1 w').1 = m.
Proof.
  intros Hfresh. unfold add_book.
  destruct (existsb _ _) eqn:Hex.
  { apply existsb_isbn in Hex as (b & Hb & Hi).
    rewrite Forall_forall in Hfresh. by destruct (Hfresh b Hb). }
  unfold remove_book. cbn [fst books with_books].
  rewrite (first_match_found i (books m) []) by done. cbn [fst].
  rewrite delete_middle, app_nil_r. by destruct m.
Qed.

(** X3: in a catalog without two records of the same isbn,
    [remove_book] leaves no record with the isbn it was given. *)
Theorem remove_book_clears_isbn (i : str) (m : LibraryManager) (w : World) :
  unique_isbn (books m) ->
  Forall (fun b => isbn b <> i) (books (remove_book i m w).1).
Proof.
  unfold unique_isbn, remove_book. intros Huniq.
  destruct (list_find _ _) as [[k b] |] eqn:Hfind.
  - destruct (first_match_split _ _ _ _ Hfind) as (l1 & l2 & Hl & Hk & Hb & Hl1).
    cbn [fst books with_books]. rewrite Hl, <- Hk, delete_middle.
    rewrite Hl, fmap_app, fmap_cons in Huniq.
    apply NoDup_app in Huniq as (_ & _ & Hright).
    apply NoDup_cons in Hright as [Hnotin _].
    apply Forall_app. split; [done |].
    apply Forall_forall. intros x Hx Hi. apply Hnotin.
    rewrite Hb, <- Hi. by apply list_elem_of_fmap_2.
  - by apply no_match_None in Hfind.
Qed.

Lemma str_in_refl (x : str) : str_in x x = true.
Proof. apply str_in_spec. exists [], []. by rewrite app_nil_r. Qed.

(** X4: a book that [add_book] has appended is among the results of
    [search_books] for each of the four texts it was added with: its
    title, its author, its isbn and its genre. *)
Theorem added_book_is_found (lower : str -> str) (t a i g : str) (y : Z)
    (st : str) (m : LibraryManager) (w w' : World) (query : str) :
  Forall (fun b => isbn b <> i) (books m) ->
  query = t \/ query = a \/ query = i \/ query = g ->
  exists b,
    b ∈ (search_books lower query (add_book t a i g y st m w).1 w').1.1 /\
    title b = t /\ author b = a /\ isbn b = i /\ genre b = g.
Proof.
  intros Hfresh Hquery. unfold add_book.
  destruct (existsb _ _) eqn:Hex.
  { apply existsb_isbn in Hex as (b & Hb & Hi).
    rewrite Forall_forall in Hfresh. by destruct (Hfresh b Hb). }
  exists {| title := t; author := a; isbn := i; genre := g; year_published := y;
            date_added := strftime_Ymd (now w); status := st |}.
  split; [| by repeat split].
  unfold search_books. cbn [fst books with_books].
  apply list_elem_of_In, filter_In. split.
  - apply list_elem_of_In, elem_of_app. right. apply list_elem_of_here.
  - unfold matches. cbn [title author isbn genre].
    destruct Hquery as [-> | [-> | [-> | ->]]]; rewrite str_in_refl;
      by rewrite ?orb_true_r.
Qed.

(** ** The catalog and its backing file *)

Lemma untouched_or_saved_add (t a i g : str) (y : Z) (st : str)
    (m : LibraryManager) (w : World) :
  untouched_or_saved m w (add_book t a i g y st m w).
Proof.
  unfold add_book. destruct (existsb _ _); [by left | by right].
Qed.

Lemma untouched_or_saved_remove (i : str) (m : LibraryManager) (w : World) :
  untouched_or_saved m w (remove_book i m w).
Proof.
  unfold remove_book. destruct (list_find _ _) as [[k b] |]; [by right | by left].
Qed.

Lemma untouched_or_saved_update (i st : str) (m : LibraryManager) (w : World) :
  untouched_or_saved m w (update_book_status i st m w).
Proof.
  unfold update_book_status.
  destruct (list_find _ _) as [[k b] |]; [by right | by left].
Qed.

(** X5: each of [add_book], [remove_book] and [update_book_status]
    either leaves the manager and every file as they were, or leaves the
    backing file holding the text of the catalog it returns and every
    other file as it was. *)
Theorem changes_are_saved (m : LibraryManager) (w : World) :
  (forall t a i g y st, untouched_or_saved m w (add_book t a i g y st m w)) /\
  (forall i, untouched_or_saved m w (remove_book i m w)) /\
  (forall i st, untouched_or_saved m w (update_book_status i st m w)).
Proof.
  split; [| split]; intros.
  - apply untouched_or_saved_add.
  - apply untouched_or_saved_remove.
  - apply untouched_or_saved_update.
Qed.

(** Loading from a file that holds the text of a well-formed catalog
    gives that catalog. *)
Lemma load_in_sync (m : LibraryManager) (w : World) :
  in_sync m w -> Forall wf_book (books m) -> load_library m w = Done (m, w).
Proof.
  unfold in_sync, load_library. intros -> Hwf.
  rewrite loads_catalog_text by done.
  cbn [iter catalog_value]. rewrite Books_of_catalog. by destruct m.
Qed.

Lemma saved_in_sync (m : LibraryManager) (w : World) (r : LibraryManager * World) :
  untouched_or_saved m w r -> r.1 <> m -> in_sync r.1 r.2.
Proof.
  intros [[Hm _] | [Hpath Hfs]] Hne; [done |].
  unfold in_sync. rewrite Hfs, Hpath. apply lookup_insert_eq.
Qed.

Lemma strftime_Ymd_wf (t : datetime) : wf_text (strftime_Ymd t).
Proof.
  assert (forall n w, forallb (fun c => c <? 128) (zfill w (decimal n)) = true) as Hz.
  { intros n w. unfold zfill, decimal. rewrite forallb_app. apply andb_true_iff. split.
    - apply forallb_forall. by intros c ->%repeat_spec.
    - pose proof (uint_chars_digits (N.to_uint n)) as Hd.
      rewrite forallb_forall in Hd. apply forallb_forall. intros c Hc.
      specialize (Hd c Hc). unfold is_digit in Hd.
      apply andb_true_iff in Hd as [_ Hle%N.leb_le]. apply N.ltb_lt. lia. }
  apply wf_text_u_ascii. unfold strftime_Ymd.
  rewrite !forallb_app, !Hz. done.
Qed.

Lemma add_book_wf (t a i g : str) (y : Z) (st : str) (m : LibraryManager) (w : World) :
  wf_text t -> wf_text a -> wf_text i -> wf_text g -> wf_text st ->
  Forall wf_book (books m) ->
  Forall wf_book (books (add_book t a i g y st m w).1).
Proof.
  intros Ht Ha Hi Hg Hst Hm. unfold add_book. destruct (existsb _ _); [done |].
  cbn [fst books with_books]. apply Forall_app. split; [done |].
  apply Forall_singleton. pose proof (strftime_Ymd_wf (now w)).
  unfold wf_book. cbn. repeat (split; [done |]). done.
Qed.

Lemma remove_book_wf (i : str) (m : LibraryManager) (w : World) :
  Forall wf_book (books m) -> Forall wf_book (books (remove_book i m w).1).
Proof.
  intros Hm. unfold remove_book. destruct (list_find _ _) as [[k b] |]; [| done].
  cbn [fst books with_books]. by apply Forall_delete.
Qed.

Lemma update_book_status_wf (i st : str) (m : LibraryManager) (w : World) :
  wf_text st -> Forall wf_book (books m) ->
  Forall wf_book (books (update_book_status i st m w).1).
Proof.
  intros Hst Hm. unfold update_book_status.
  destruct (list_find _ _) as [[k b] |] eqn:Hfind; [| done].
  cbn [fst books with_books]. apply Forall_insert; [done |].
  apply list_find_Some in Hfind as (Hk & _ & _).
  rewrite Forall_forall in Hm. destruct (Hm b) as (? & ? & ? & ? & ? & ?).
  { by eapply list_elem_of_lookup_2. }
  unfold wf_book. cbn. repeat (split; [done |]). done.
Qed.

(** X6: on a well-formed catalog and with well-formed arguments, every
    change that [add_book], [remove_book] or [update_book_status] makes
    to the catalog is found again by the next start: [load_library]
    run on the manager and the world that the call returned gives both
    back unchanged. *)
Theorem changes_survive_restart (m : LibraryManager) (w : World) :
  Forall wf_book (books m) ->
  (forall t a i g y st,
     wf_text t -> wf_text a -> wf_text i -> wf_text g -> wf_text st ->
     (add_book t a i g y st m w).1 <> m ->
     load_library (add_book t a i g y st m w).1 (add_book t a i g y st m w).2 =
       Done (add_book t a i g y st m w)) /\
  (forall i,
     (remove_book i m w).1 <> m ->
     load_library (remove_book i m w).1 (remove_book i m w).2 =
       Done (remove_book i m w)) /\
  (forall i st,
     wf_text st ->
     (update_book_status i st m w).1 <> m ->
     load_library (update_book_status i st m w).1 (update_book_status i st m w).2 =
       Done (update_book_status i st m w)).
Proof.
  intros Hwf. split; [| split].
  - intros t a i g y st Ht Ha Hi Hg Hst Hne.
    rewrite load_in_sync; [by destruct (add_book _ _ _ _ _ _ _ _) | |].
    + eapply saved_in_sync; [apply untouched_or_saved_add | done].
    + by apply add_book_wf.
  - intros i Hne.
    rewrite load_in_sync; [by destruct (remove_book _ _ _) | |].
    + eapply saved_in_sync; [apply untouched_or_saved_remove | done].
    + by apply remove_book_wf.
  - intros i st Hst Hne.
    rewrite load_in_sync; [by destruct (update_book_status _ _ _ _) | |].
    + eapply saved_in_sync; [apply untouched_or_saved_update | done].
    + by apply update_book_status_wf.
Qed.

(** X7: two well-formed catalogs that [save_library] writes as the same
    text are the same catalog. *)
Theorem catalog_text_injective (bs bs' : list Book) :
  Forall wf_book bs -> Forall wf_book bs' ->
  catalog_text bs = catalog_text bs' -> bs = bs'.
Proof.
  intros Hbs Hbs' Htext.
  pose proof (loads_catalog_text bs Hbs) as H1.
  pose proof (loads_catalog_text bs' Hbs') as H2.
  rewrite Htext, H2 in H1. injection H1 as H1.
  pose proof (Books_of_catalog bs) as B1. pose proof (Books_of_catalog bs') as B2.
  rewrite <- H1, B2 in B1. by injection B1.
Qed.

Lemma hex_digit_ascii (n : N) : n < 16 -> hex_digit n < 128.
Proof. unfold hex_digit. intros Hn. destruct (n <? 10); lia. Qed.

Lemma u_escape_ascii (n : N) : Forall (fun c => c < 128) (u_escape n).
Proof.
  unfold u_escape.
  repeat (apply Forall_cons; split); try apply Forall_nil_2; try lia.
  all: apply hex_digit_ascii, N.mod_lt; lia.
Qed.

Lemma escape_cp_ascii (c : N) : Forall (fun c => c < 128) (escape_cp c).
Proof.
  unfold escape_cp.
  repeat (match goal with |- context [if ?b then _ else _] => destruct b eqn:? end);
    try (repeat (apply Forall_cons; split); try apply Forall_nil_2; lia).
  - apply Forall_singleton.
    match goal with H : _ && _ = true |- _ =>
      apply andb_true_iff in H as [_ ?%N.leb_le] end. lia.
  - apply u_escape_ascii.
  - apply Forall_app. split; apply u_escape_ascii.
Qed.

Lemma encode_basestring_ascii_ascii (s : str) :
  Forall (fun c => c < 128) (encode_basestring_ascii s).
Proof.
  unfold encode_basestring_ascii. apply Forall_cons. split; [lia |].
  apply Forall_app. split; [| by apply Forall_singleton].
  induction s as [| c s IH]; [done |]. cbn [flat_map].
  apply Forall_app. split; [apply escape_cp_ascii | done].
Qed.

Lemma int_repr_ascii (z : Z) : Forall (fun c => c < 128) (int_repr z).
Proof.
  assert (forall d, Forall (fun c => c < 128) (uint_chars d)) as Hd.
  { intros d. pose proof (uint_chars_digits d) as H.
    rewrite forallb_forall in H. apply Forall_forall. intros c Hc%list_elem_of_In.
    specialize (H c Hc). unfold is_digit in H.
    apply andb_true_iff in H as [_ Hle%N.leb_le]. lia. }
  unfold int_repr. destruct (Z.to_int z); [done |].
  apply Forall_cons. split; [lia | done].
Qed.

Lemma newline_indent_ascii (indent level : nat) :
  Forall (fun c => c < 128) (newline_indent indent level).
Proof.
  unfold newline_indent. apply Forall_cons. split; [lia |].
  apply Forall_forall. intros c Hc%list_elem_of_In. apply repeat_spec in Hc. lia.
Qed.

Lemma encode_items_ascii (opening closing : N) (indent level : nat)
    (items : list str) :
  opening < 128 -> closing < 128 ->
  Forall (Forall (fun c => c < 128)) items ->
  Forall (fun c => c < 128) (encode_items opening closing indent level items).
Proof.
  intros Ho Hc Hitems. unfold encode_items.
  destruct Hitems as [| i0 rest Hi0 Hrest].
  - by repeat (apply Forall_cons; split).
  - apply Forall_cons. split; [done |].
    repeat (apply Forall_app; split); try apply newline_indent_ascii;
      try done; [| by apply Forall_singleton].
    induction Hrest as [| i rest Hi Hrest IH]; [done |]. cbn [flat_map].
    apply Forall_app. split; [| done].
    apply Forall_cons. split; [lia |].
    apply Forall_app. split; [apply newline_indent_ascii | done].
Qed.

Lemma encode_pair_ascii (level : nat) (k : str) (v : json) :
  match v with JStr _ | JInt _ => True | _ => False end ->
  Forall (fun c => c < 128) (encode_pair 4 level (k, v)).
Proof.
  intros Hv. unfold encode_pair. cbn [fst snd].
  apply Forall_app. split; [apply encode_basestring_ascii_ascii |].
  apply Forall_cons. split; [lia |]. apply Forall_cons. split; [lia |].
  destruct v; try done; cbn [iterencode];
    [apply int_repr_ascii | apply encode_basestring_ascii_ascii].
Qed.

(** X8: the text that [save_library] writes is ASCII whatever the
    catalog holds: every code point of it is below 128. *)
Theorem catalog_text_is_ascii (bs : list Book) :
  Forall (fun c => c < 128) (catalog_text bs).
Proof.
  unfold catalog_text, catalog_value, dumps. rewrite iterencode_arr.
  apply encode_items_ascii; [lia | lia |].
  apply Forall_map, Forall_map, Forall_forall. intros b _.
  rewrite iterencode_obj.
  apply encode_items_ascii; [lia | lia |].
  unfold Book_dict. cbn [map].
  repeat first [apply Forall_nil_2 | apply Forall_cons_2; [by apply encode_pair_ascii |]].
Qed.

(** X9: [load_library] reads only.  When it returns, the path of the
    manager, the files and the clock are as before, and either nothing
    was printed or the catalog is empty and the one line printed is the
    invalid-file error. *)
Theorem load_library_reads_only (m m' : LibraryManager) (w w' : World) :
  load_library m w = Done (m', w') ->
  data_file m' = data_file m /\ fs w' = fs w /\ now w' = now w /\
  (events w' = events w \/
   books m' = [] /\
   events w' =
     events w ++
     [Print (u "Error: Invalid JSON file. Starting with empty library.")]).
Proof.
  unfold load_library. intros H.
  repeat case_match; simplify_eq; cbn [data_file books with_books print fs now events];
    repeat split; auto.
Qed.

(** ** Listing *)

Lemma print_entry_spec (w : World) (i : nat) (book : Book) :
  fs (print_entry w (i, book)) = fs w /\
  now (print_entry w (i, book)) = now w /\
  events (print_entry w (i, book)) = events w ++ map Print (entry_lines i book).
Proof.
  unfold print_entry, entry_lines, print.
  cbn [fs now events map]. by rewrite <- !app_assoc.
Qed.

Lemma print_entries_spec (l : list (nat * Book)) (w : World) :
  fs (fold_left print_entry l w) = fs w /\
  now (fold_left print_entry l w) = now w /\
  events (fold_left print_entry l w) =
    events w ++
    map Print (flat_map (fun numbered => entry_lines numbered.1 numbered.2) l).
Proof.
  revert w. induction l as [| [i book] l IH]; intros w; cbn [fold_left flat_map].
  - by rewrite app_nil_r.
  - destruct (IH (print_entry w (i, book))) as (-> & -> & ->).
    destruct (print_entry_spec w i book) as (-> & -> & ->).
    cbn [fst snd]. by rewrite map_app, app_assoc.
Qed.

Lemma entries_length (l : list (nat * Book)) :
  length (flat_map (fun numbered => entry_lines numbered.1 numbered.2) l) =
  (5 * length l)%nat.
Proof.
  induction l as [| p l IH]; [done |]. cbn [flat_map].
  rewrite length_app, IH. unfold entry_lines. cbn [length]. lia.
Qed.

Lemma enumerate_length {A} (start : nat) (l : list A) :
  length (enumerate start l) = length l.
Proof. unfold enumerate. rewrite length_zip, length_seq. lia. Qed.

Lemma enumerate_app {A} (start : nat) (l1 l2 : list A) :
  enumerate start (l1 ++ l2) =
  enumerate start l1 ++ enumerate (start + length l1) l2.
Proof.
  unfold enumerate. rewrite length_app, seq_app.
  apply zip_with_app. by rewrite length_seq.
Qed.

(** What [list_books] returns, with the lines it prints. *)
Lemma list_books_trace (m : LibraryManager) (w : World) :
  (list_books m w).1 = m /\
  fs (list_books m w).2 = fs w /\
  now (list_books m w).2 = now w /\
  events (list_books m w).2 =
    events w ++
    map Print
      match books m with
      | [] => [u "The library is empty."]
      | _ :: _ =>
          (10 :: u "Library Contents:") :: rule ::
          flat_map (fun numbered => entry_lines numbered.1 numbered.2)
                   (enumerate 1 (books m))
      end.
Proof.
  unfold list_books. destruct (books m) as [| b bs] eqn:Hbooks; [done |].
  set (w2 := print rule (print (10 :: u "Library Contents:") w)).
  destruct (print_entries_spec (enumerate 1 (b :: bs)) w2) as (Hfs & Hnow & Hev).
  cbn [fst snd]. rewrite Hfs, Hnow, Hev.
  split; [done |]. split; [done |]. split; [done |].
  unfold w2. cbn [events print map]. by rewrite <- !app_assoc.
Qed.

(** X10: [list_books] changes nothing: it returns the manager it was
    given, leaves every file and the clock as they were and adds only
    printed lines to the trace: the one line that says the library is
    empty when the catalog has no record, two header lines and five
    lines for each record otherwise. *)
Theorem list_books_reads_only (m : LibraryManager) (w : World) :
  exists lines,
    (list_books m w).1 = m /\
    fs (list_books m w).2 = fs w /\
    now (list_books m w).2 = now w /\
    events (list_books m w).2 = events w ++ map Print lines /\
    (books m = [] -> lines = [u "The library is empty."]) /\
    (books m <> [] -> length lines = (2 + 5 * length (books m))%nat).
Proof.
  destruct (list_books_trace m w) as (Hm & Hfs & Hnow & Hev).
  eexists. split; [exact Hm |]. split; [exact Hfs |]. split; [exact Hnow |].
  split; [exact Hev |].
  destruct (books m) as [| b bs]; split; try done.
  intros _. cbn [length]. rewrite entries_length, enumerate_length.
  cbn [length]. lia.
Qed.

(** X11: for the record at position [k] of the catalog (counted from 0),
    [list_books] prints its five lines, numbered [k + 1], one after the
    other, starting [2 + 5 * k] events after the trace it was given. *)
Theorem list_books_shows_record (m : LibraryManager) (w : World)
    (k : nat) (b : Book) :
  books m !! k = Some b ->
  exists before after,
    events (list_books m w).2 =
      before ++ map Print (entry_lines (S k) b) ++ after /\
    length before = (length (events w) + 2 + 5 * k)%nat.
Proof.
  intros Hk. unfold list_books.
  destruct (books m) as [| b0 bs] eqn:Hbooks; [done |]. rewrite <- Hbooks in Hk |- *.
  pose proof (take_drop_middle _ _ _ Hk) as Hsplit.
  assert (length (take k (books m)) = k) as Hlen.
  { rewrite length_take. apply lookup_lt_Some in Hk. lia. }
  set (w2 := print rule (print (10 :: u "Library Contents:") w)).
  destruct (print_entries_spec (enumerate 1 (books m)) w2) as (_ & _ & Hev).
  cbn [snd]. rewrite Hev. unfold w2. cbn [events print].
  replace (enumerate 1 (books m))
    with (enumerate 1 (take k (books m) ++ b :: drop (S k) (books m)))
    by (by rewrite Hsplit).
  rewrite enumerate_app, Hlen.
  change (b :: drop (S k) (books m)) with ([b] ++ drop (S k) (books m)).
  rewrite enumerate_app. rewrite !flat_map_app, !map_app.
  exists ((events w ++ [Print (10 :: u "Library Contents:")]) ++ [Print rule] ++
          map Print (flat_map (fun numbered => entry_lines numbered.1 numbered.2)
                              (enumerate 1 (take k (books m))))).
  eexists. split.
  - rewrite <- !app_assoc. cbn [enumerate length seq zip zip_with flat_map app fst snd].
    rewrite app_nil_r. reflexivity.
  - rewrite !length_app, length_map, entries_length, enumerate_length, Hlen.
    cbn [length]. lia.
Qed.

(** ** The interactive shell *)

Lemma quiet_refl (s : Shell) : quiet s s.
Proof.
  repeat split; [by exists []; rewrite app_nil_r | by exists []].
Qed.

Lemma quiet_trans (s1 s2 s3 : Shell) : quiet s1 s2 -> quiet s2 s3 -> quiet s1 s3.
Proof.
  intros (Hm & Hfs & Hnow & [l1 Hev] & [r1 Hin]) (Hm' & Hfs' & Hnow' & [l2 Hev'] & [r2 Hin']).
  repeat split; try congruence.
  - exists (l1 ++ l2). by rewrite Hev', Hev, map_app, app_assoc.
  - exists (r1 ++ r2). by rewrite Hin, Hin', app_assoc.
Qed.

Section Steps.

Variable R : Shell -> Shell -> Prop.
Hypothesis R_refl : forall s, R s s.
Hypothesis R_trans : forall s1 s2 s3, R s1 s2 -> R s2 s3 -> R s1 s3.
Hypothesis R_quiet : forall s s', quiet s s' -> R s s'.

Lemma ends_at_ret {A} (a : A) (s : Shell) : ends_at R (ret a) s.
Proof. apply R_refl. Qed.

Lemma ends_at_bind {A B} (c : Shell -> run A) (k : A -> Shell -> run B) (s : Shell) :
  ends_at R c s ->
  (forall a s', c s = Ret a s' -> ends_at R (k a) s') ->
  ends_at R (bind c k) s.
Proof.
  unfold ends_at, bind. intros Hc Hk. destruct (c s) as [a s' | e s' |]; [| done | done].
  specialize (Hk a s' eq_refl). destruct (k a s'); [| | done]; by eapply R_trans.
Qed.

Lemma ends_at_say (line : str) (s : Shell) : ends_at R (say line) s.
Proof.
  apply R_quiet. repeat split; [by exists [line] | by exists []].
Qed.

Lemma ends_at_input (prompt : str) (s : Shell) : ends_at R (input prompt) s.
Proof.
  unfold ends_at, input. destruct (stdin s) as [| line rest] eqn:Hin; apply R_quiet.
  - repeat split; cbn; [by exists []; rewrite app_nil_r | exists []; by rewrite Hin].
  - repeat split; cbn; [by exists []; rewrite app_nil_r | exists [line]; by rewrite Hin].
Qed.

Lemma ends_at_to_int (int : str -> option Z) (text : str) (s : Shell) :
  ends_at R (to_int int text) s.
Proof. unfold ends_at, to_int. destruct (int text); apply R_refl. Qed.

Lemma ends_at_search (lower : str -> str) (query : str) (s : Shell) :
  ends_at R (search lower query) s.
Proof.
  apply R_quiet. repeat split; [by exists []; rewrite app_nil_r | by exists []].
Qed.

Lemma ends_at_say_results (results : list Book) (s : Shell) :
  ends_at R (say_results results) s.
Proof.
  revert s. induction results as [| book results IH]; intros s; cbn [say_results].
  - apply ends_at_ret.
  - apply ends_at_bind; [apply ends_at_say | intros _ s' _; apply IH].
Qed.

Lemma ends_at_print_menu (s : Shell) : ends_at R print_menu s.
Proof.
  unfold print_menu.
  repeat (apply ends_at_bind; [apply ends_at_say | intros _ ? _]).
  apply ends_at_say.
Qed.

Lemma ends_at_list_books (s : Shell) : ends_at R (call list_books) s.
Proof.
  unfold ends_at, call.
  destruct (list_books_trace (library s) (world s)) as (Hm & Hfs & Hnow & Hev).
  destruct (list_books (library s) (world s)) as [m w]. cbn [fst snd] in *.
  apply R_quiet. repeat split; [done | done | done | by eexists | by exists []].
Qed.

End Steps.

(** The steps of a turn, one after the other, for a relation that the
    hypotheses named show to be reflexive, transitive and implied by
    [quiet]; [calls] is the tactic for the calls that change the
    catalog. *)
Ltac steps R_refl R_trans R_quiet calls :=
  repeat first
    [ calls
    | apply (ends_at_ret _ R_refl)
    | apply (ends_at_say _ R_quiet)
    | apply (ends_at_input _ R_quiet)
    | apply (ends_at_to_int _ R_refl)
    | apply (ends_at_search _ R_quiet)
    | apply (ends_at_say_results _ R_refl R_trans R_quiet)
    | apply (ends_at_print_menu _ R_trans R_quiet)
    | apply (ends_at_list_books _ R_quiet)
    | apply (ends_at_bind _ R_trans); [| intros ? ? ?]
    | match goal with |- ends_at _ (match ?r with _ => _ end) _ => destruct r end ].

Lemma ends_at_iteration (R : Shell -> Shell -> Prop)
    (lower : str -> str) (int : str -> option Z) :
  (forall s, R s s) ->
  (forall s1 s2 s3, R s1 s2 -> R s2 s3 -> R s1 s3) ->
  (forall s s', quiet s s' -> R s s') ->
  (forall t a i g y st s, ends_at R (call (add_book t a i g y st)) s) ->
  (forall i s, ends_at R (call (remove_book i)) s) ->
  (forall i st s, ends_at R (call (update_book_status i st)) s) ->
  forall s, ends_at R (iteration lower int) s.
Proof.
  intros R_refl R_trans R_quiet R_add R_remove R_update s. unfold iteration.
  repeat case_bool_decide;
    steps R_refl R_trans R_quiet
          ltac:(first [apply R_add | apply R_remove | apply R_update]).
Qed.

Lemma bind_ret {A B} (c : Shell -> run A) (k : A -> Shell -> run B)
    (s s' : Shell) (a : A) :
  c s = Ret a s' -> bind c k s = k a s'.
Proof. unfold bind. by intros ->. Qed.

Lemma bind_exc {A B} (c : Shell -> run A) (k : A -> Shell -> run B)
    (s s' : Shell) (e : shell_exn) :
  c s = Exc e s' -> bind c k s = Exc e s'.
Proof. unfold bind. by intros ->. Qed.

(** The state once the menu is printed. *)
Lemma print_menu_run (s : Shell) :
  print_menu s =
    Ret tt {| library := library s; world := print_lines menu_lines (world s);
              stdin := stdin s; prompts := prompts s |}.
Proof. reflexivity. Qed.

Lemma print_lines_spec (lines : list str) (w : World) :
  events (print_lines lines w) = events w ++ map Print lines /\
  fs (print_lines lines w) = fs w /\
  now (print_lines lines w) = now w.
Proof.
  unfold print_lines.
  revert w. induction lines as [| line lines IH]; intros w; cbn [fold_left map].
  - by rewrite app_nil_r.
  - destruct (IH (print line w)) as (-> & -> & ->). cbn [print events fs now].
    by rewrite <- app_assoc.
Qed.

Lemma input_run (prompt line : str) (rest : list str) (s : Shell) :
  stdin s = line :: rest ->
  input prompt s =
    Ret line {| library := library s; world := world s; stdin := rest;
                prompts := prompts s ++ [(length (events (world s)), prompt)] |}.
Proof. unfold input. by intros ->. Qed.

(** A turn starts with the menu and the prompt for the choice; with no
    line left, [input] raises there. *)
Lemma iteration_eof (lower : str -> str) (int : str -> option Z) (s : Shell) :
  stdin s = [] ->
  iteration lower int s =
    Exc EOFError
        {| library := library s; world := print_lines menu_lines (world s);
           stdin := [];
           prompts := prompts s ++
             [(length (events (print_lines menu_lines (world s))),
               10 :: u "Enter your choice (1-6): ")] |}.
Proof.
  intros Hin. unfold iteration. rewrite (bind_ret _ _ _ _ _ (print_menu_run s)).
  apply bind_exc. unfold input. cbn [stdin library world prompts]. by rewrite Hin.
Qed.

(** With a line left, the turn goes on with that line as the choice. *)
Ltac read_choice Hin :=
  unfold iteration;
  rewrite (bind_ret _ _ _ _ _ (print_menu_run _));
  erewrite bind_ret; [| apply input_run; cbn [stdin]; exact Hin].

(** A turn that returns has read at least the line of the choice. *)
Lemma iteration_reads (lower : str -> str) (int : str -> option Z) (s : Shell) :
  match iteration lower int s with
  | Ret _ s' => (length (stdin s') < length (stdin s))%nat
  | Exc _ _ => True
  | NoFuel => False
  end.
Proof.
  set (R := fun s s' : Shell => (length (stdin s') <= length (stdin s))%nat).
  assert (forall s, R s s) as R_refl by (intros; unfold R; lia).
  assert (forall s1 s2 s3, R s1 s2 -> R s2 s3 -> R s1 s3) as R_trans
    by (unfold R; intros; lia).
  assert (forall s s', quiet s s' -> R s s') as R_quiet.
  { intros s1 s2 (_ & _ & _ & _ & [read Hread]). unfold R.
    rewrite Hread, length_app. lia. }
  assert (forall method s, ends_at R (call method) s) as R_call.
  { intros method s1. unfold ends_at, call.
    destruct (method _ _). unfold R. cbn. lia. }
  destruct (stdin s) as [| choice rest] eqn:Hin.
  { by rewrite iteration_eof. }
  read_choice Hin.
  match goal with |- match ?c ?s2 with _ => _ end =>
    assert (ends_at R c s2) as Hturn
  end.
  { repeat case_bool_decide; steps R_refl R_trans R_quiet ltac:(apply R_call). }
  unfold ends_at, R in Hturn. cbn [stdin] in Hturn.
  match goal with |- match ?x with _ => _ end => destruct x end;
    cbn [length]; [lia | done | done].
Qed.

Lemma loop_finishes (lower : str -> str) (int : str -> option Z) (fuel : nat) :
  forall s, (length (stdin s) < fuel)%nat -> loop lower int fuel s <> NoFuel.
Proof.
  induction fuel as [| fuel IH]; intros s Hfuel; [lia |].
  cbn [loop]. unfold bind. pose proof (iteration_reads lower int s) as Hturn.
  destruct (iteration lower int s) as [[|] s' | e s' |]; try done.
  apply IH. lia.
Qed.

Lemma load_library_finishes (m : LibraryManager) (w : World) :
  load_library m w <> Unfinished.
Proof.
  unfold load_library. destruct (fs w !! data_file m) as [text |]; [| done].
  pose proof (loads_fuel_enough text) as Hfuel.
  destruct (loads text) as [data rest | |]; [| done | done].
  destruct (iter data) as [items |]; [| done].
  pose proof (Books_of_finishes items). by destruct (Books_of items).
Qed.

(** X12: [main] comes to an end on every input: with the lines that
    standard input holds it leaves by the exit choice or raises
    ([EOFError] when the lines run out, [ValueError] for a year that
    is no number), unless the constructor of the manager has raised;
    the same holds for the script. *)
Theorem main_finishes (lower : str -> str) (int : str -> option Z)
    (w : World) (lines : list str) :
  main lower int w lines <> Done NoFuel /\
  main lower int w lines <> Unfinished /\
  script lower int w lines <> Done NoFuel /\
  script lower int w lines <> Unfinished.
Proof.
  assert (main lower int w lines <> Done NoFuel /\
          main lower int w lines <> Unfinished) as [Hfuel Hload].
  { unfold main, init.
    pose proof (load_library_finishes
                  {| data_file := library_data_json; books := [] |} w) as Hfin.
    destruct (load_library _ w) as [[m w'] | e | |]; [| done | done | done].
    split; [| done]. intros [= H].
    by apply (loop_finishes lower int (S (length lines))) in H; [| cbn; lia]. }
  split; [done |]. split; [done |]. unfold script.
  destruct (main lower int w lines) as [[[] s | e s |] | e | |]; try done.
  unfold init.
  pose proof (load_library_finishes
                {| data_file := library_data_json; books := [] |} (world s)) as Hfin.
  destruct (load_library _ (world s)) as [[m w'] | e | |]; [| done | done | done].
  by destruct (add_book _ _ _ _ _ _ m w').
Qed.

(** ** What a session keeps *)

Lemma loop_stays (lower : str -> str) (int : str -> option Z)
    (I : LibraryManager -> gmap (list N) (list N) -> Prop) :
  (forall t a i g y st m w, I m (fs w) ->
     I (add_book t a i g y st m w).1 (fs (add_book t a i g y st m w).2)) ->
  (forall i m w, I m (fs w) ->
     I (remove_book i m w).1 (fs (remove_book i m w).2)) ->
  (forall i st m w, I m (fs w) ->
     I (update_book_status i st m w).1 (fs (update_book_status i st m w).2)) ->
  forall fuel, stays I (loop lower int fuel).
Proof.
  intros Hadd Hrem Hupd.
  set (R := fun s s' : Shell =>
              I (library s) (fs (world s)) -> I (library s') (fs (world s'))).
  assert (forall s, ends_at R (iteration lower int) s) as Hturn.
  { apply ends_at_iteration; unfold R.
    - done.
    - auto.
    - by intros s s' (-> & -> & _).
    - intros t a i g y st s. unfold ends_at, call.
      specialize (Hadd t a i g y st (library s) (world s)).
      by destruct (add_book _ _ _ _ _ _ _ _).
    - intros i s. unfold ends_at, call.
      specialize (Hrem i (library s) (world s)). by destruct (remove_book _ _ _).
    - intros i st s. unfold ends_at, call.
      specialize (Hupd i st (library s) (world s)).
      by destruct (update_book_status _ _ _ _). }
  induction fuel as [| fuel IH]; intros s HI; [done |].
  cbn [loop]. unfold bind. specialize (Hturn s). unfold ends_at, R in Hturn.
  destruct (iteration lower int s) as [[|] s' | e s' |]; [| | | done].
  - apply IH, Hturn, HI.
  - apply Hturn, HI.
  - apply Hturn, HI.
Qed.

Lemma load_library_keeps (m m' : LibraryManager) (w w' : World) :
  load_library m w = Done (m', w') ->
  data_file m' = data_file m /\ fs w' = fs w /\ now w' = now w.
Proof.
  unfold load_library. intros H.
  by repeat case_match; simplify_eq.
Qed.

(** A run of [main] that has ended has built its manager and then run
    the loop from it. *)
Lemma main_ended (lower : str -> str) (int : str -> option Z)
    (w : World) (lines : list str) (s : Shell) :
  ends_in (main lower int w lines) s ->
  exists m0 w0,
    init library_data_json w = Done (m0, w0) /\
    data_file m0 = library_data_json /\ fs w0 = fs w /\
    forall I, stays I (loop lower int (S (length lines))) ->
              I m0 (fs w0) -> I (library s) (fs (world s)).
Proof.
  unfold ends_in, main. intros Hend.
  destruct (init library_data_json w) as [[m0 w0] | | |] eqn:Hinit;
    [| by destruct Hend as [[? ?] | [? ?]] ..].
  exists m0, w0. split; [done |].
  destruct (load_library_keeps _ _ _ _ Hinit) as (Hpath & Hfs & _).
  split; [done |]. split; [done |].
  intros I Hstays HI.
  specialize (Hstays {| library := m0; world := w0; stdin := lines; prompts := [] |} HI).
  set (r := loop lower int (S (length lines)) _) in *.
  by destruct Hend as [[a [= ->]] | [e [= ->]]].
Qed.

(** X13: the shell changes the catalog and the files only through
    [add_book], [remove_book] and [update_book_status]: a property of
    the manager and the files that these three keep holds in every
    state of the loop that it held in at the start, and at the end of
    [main] when it held for the manager just built. *)
Theorem session_keeps (lower : str -> str) (int : str -> option Z)
    (I : LibraryManager -> gmap (list N) (list N) -> Prop) :
  (forall t a i g y st m w, I m (fs w) ->
     I (add_book t a i g y st m w).1 (fs (add_book t a i g y st m w).2)) ->
  (forall i m w, I m (fs w) ->
     I (remove_book i m w).1 (fs (remove_book i m w).2)) ->
  (forall i st m w, I m (fs w) ->
     I (update_book_status i st m w).1 (fs (update_book_status i st m w).2)) ->
  (forall fuel, stays I (loop lower int fuel)) /\
  (forall w lines m0 w0 s,
     init library_data_json w = Done (m0, w0) -> I m0 (fs w0) ->
     ends_in (main lower int w lines) s -> I (library s) (fs (world s))).
Proof.
  intros Hadd Hrem Hupd.
  pose proof (loop_stays lower int I Hadd Hrem Hupd) as Hloop.
  split; [done |]. intros w lines m0 w0 s Hinit HI Hend.
  destruct (main_ended _ _ _ _ _ Hend) as (m1 & w1 & Hinit' & _ & _ & Hkeep).
  rewrite Hinit in Hinit'. injection Hinit' as <- <-. by apply Hkeep.
Qed.

Lemma add_book_unique (t a i g : str) (y : Z) (st : str)
    (m : LibraryManager) (w : World) :
  unique_isbn (books m) -> unique_isbn (books (add_book t a i g y st m w).1).
Proof.
  unfold unique_isbn. intros Hm.
  destruct (add_book_books t a i g y st m w) as [-> | (Hfresh & b & Hb & ->)];
    [done |].
  rewrite fmap_app. apply NoDup_app. repeat split; [done | | ].
  - intros x (b' & -> & Hb')%list_elem_of_fmap Hx.
    cbn in Hx. apply list_elem_of_singleton in Hx.
    rewrite Forall_forall in Hfresh. apply (Hfresh b' Hb'). congruence.
  - apply NoDup_singleton.
Qed.

Lemma remove_book_unique (i : str) (m : LibraryManager) (w : World) :
  unique_isbn (books m) -> unique_isbn (books (remove_book i m w).1).
Proof.
  unfold unique_isbn, remove_book. intros Hm.
  destruct (list_find _ _) as [[k b] |]; [cbn | done].
  rewrite list_fmap_delete. exact (sublist_NoDup _ _ Hm (sublist_delete _ _)).
Qed.

Lemma update_book_status_isbns (i st : str) (m : LibraryManager) (w : World) :
  isbn <$> books (update_book_status i st m w).1 = isbn <$> books m.
Proof.
  unfold update_book_status.
  destruct (list_find _ _) as [[k b] |] eqn:Hfind; [cbn | done].
  apply list_find_Some in Hfind as (Hk & _ & _).
  rewrite list_fmap_insert. cbn.
  rewrite list_insert_id; [done |]. by rewrite list_lookup_fmap, Hk.
Qed.

(** X14: when the catalog that [main] loads has no two records of the
    same isbn, the catalog has none at the end of the session either,
    whatever was typed and however the session ended. *)
Theorem main_keeps_unique_isbn (lower : str -> str) (int : str -> option Z)
    (w : World) (lines : list str) (m0 : LibraryManager) (w0 : World) (s : Shell) :
  init library_data_json w = Done (m0, w0) ->
  unique_isbn (books m0) ->
  ends_in (main lower int w lines) s ->
  unique_isbn (books (library s)).
Proof.
  intros Hinit Hm0 Hend.
  destruct (main_ended _ _ _ _ _ Hend) as (m1 & w1 & Hinit' & _ & _ & Hkeep).
  rewrite Hinit in Hinit'. injection Hinit' as <- <-.
  apply (Hkeep (fun m _ => unique_isbn (books m))); [| done].
  apply loop_stays.
  - intros. by apply add_book_unique.
  - intros. by apply remove_book_unique.
  - intros. unfold unique_isbn. by rewrite update_book_status_isbns.
Qed.

(** X15: at the end of a session, either the manager and the files are
    as they were when [main] built the manager, or the backing file
    holds the text of the catalog in memory: no change of the catalog
    is left unsaved, also when the session ends by an exception. *)
Theorem main_saves_changes (lower : str -> str) (int : str -> option Z)
    (w : World) (lines : list str) (m0 : LibraryManager) (w0 : World) (s : Shell) :
  init library_data_json w = Done (m0, w0) ->
  ends_in (main lower int w lines) s ->
  (library s = m0 /\ fs (world s) = fs w) \/ in_sync (library s) (world s).
Proof.
  intros Hinit Hend.
  destruct (main_ended _ _ _ _ _ Hend) as (m1 & w1 & Hinit' & _ & Hfs & Hkeep).
  rewrite Hinit in Hinit'. injection Hinit' as <- <-.
  assert (forall m w' r, untouched_or_saved m w' r ->
            (m = m0 /\ fs w' = fs w) \/ fs w' !! data_file m = Some (catalog_text (books m)) ->
            (r.1 = m0 /\ fs r.2 = fs w) \/
            fs r.2 !! data_file r.1 = Some (catalog_text (books r.1))) as Hstep.
  { intros m w' r [[-> ->] | [Hpath ->]] HI; [done | right].
    rewrite Hpath. apply lookup_insert_eq. }
  apply (Hkeep (fun m f => (m = m0 /\ f = fs w) \/
                           f !! data_file m = Some (catalog_text (books m))));
    [| by left].
  apply loop_stays.
  - intros t a i g y st m w'. apply Hstep, untouched_or_saved_add.
  - intros i m w'. apply Hstep, untouched_or_saved_remove.
  - intros i st m w'. apply Hstep, untouched_or_saved_update.
Qed.

(** X16: a session writes to no file but [library_data.json]: at its
    end the manager still has that path, and every other path holds
    what it held when [main] was started, or is still absent. *)
Theorem main_touches_one_file (lower : str -> str) (int : str -> option Z)
    (w : World) (lines : list str) (s : Shell) :
  ends_in (main lower int w lines) s ->
  data_file (library s) = library_data_json /\
  forall path, path <> library_data_json -> fs (world s) !! path = fs w !! path.
Proof.
  intros Hend.
  destruct (main_ended _ _ _ _ _ Hend) as (m0 & w0 & _ & Hpath & Hfs & Hkeep).
  assert (forall m w' r, untouched_or_saved m w' r ->
            data_file m = library_data_json /\
            (forall path, path <> library_data_json -> fs w' !! path = fs w !! path) ->
            data_file r.1 = library_data_json /\
            (forall path, path <> library_data_json -> fs r.2 !! path = fs w !! path))
    as Hstep.
  { intros m w' r [[-> ->] | [Hsame ->]] [Hm Hother]; [done |].
    split; [congruence |]. intros path Hne.
    rewrite lookup_insert_ne by congruence. by apply Hother. }
  apply (Hkeep (fun m f => data_file m = library_data_json /\
                  forall path, path <> library_data_json -> f !! path = fs w !! path)).
  - apply loop_stays.
    + intros t a i g y st m w'. apply Hstep, untouched_or_saved_add.
    + intros i m w'. apply Hstep, untouched_or_saved_remove.
    + intros i st m w'. apply Hstep, untouched_or_saved_update.
  - split; [done |]. intros. by rewrite Hfs.
Qed.

(** ** The turns of the shell, choice by choice *)

Lemma bind_input {B} (prompt : str) (k : str -> Shell -> run B) (s : Shell) :
  bind (input prompt) k s =
    match stdin s with
    | line :: rest =>
        k line {| library := library s; world := world s; stdin := rest;
                  prompts := prompts s ++ [(length (events (world s)), prompt)] |}
    | [] =>
        Exc EOFError
            {| library := library s; world := world s; stdin := [];
               prompts := prompts s ++ [(length (events (world s)), prompt)] |}
    end.
Proof. unfold bind, input. by destruct (stdin s). Qed.

Lemma bind_say {B} (line : str) (k : unit -> Shell -> run B) (s : Shell) :
  bind (say line) k s =
    k tt {| library := library s; world := print line (world s);
            stdin := stdin s; prompts := prompts s |}.
Proof. reflexivity. Qed.

Lemma bind_call {B} (method : LibraryManager -> World -> LibraryManager * World)
    (k : unit -> Shell -> run B) (s : Shell) :
  bind (call method) k s =
    k tt {| library := (method (library s) (world s)).1;
            world := (method (library s) (world s)).2;
            stdin := stdin s; prompts := prompts s |}.
Proof. unfold bind, call. by destruct (method _ _). Qed.

Lemma print_lines_app (l1 l2 : list str) (w : World) :
  print_lines (l1 ++ l2) w = print_lines l2 (print_lines l1 w).
Proof. apply fold_left_app. Qed.

Lemma say_results_run (results : list Book) (s : Shell) :
  say_results results s =
    Ret tt {| library := library s;
              world := print_lines (map result_line results) (world s);
              stdin := stdin s; prompts := prompts s |}.
Proof.
  revert s. induction results as [| book results IH]; intros s.
  - by destruct s.
  - cbn [say_results]. rewrite bind_say, IH. reflexivity.
Qed.

(** The choice typed is not the text [c]. *)
Ltac other_choice :=
  rewrite bool_decide_eq_false_2
    by (let H := fresh in
        first [ done | intros H; vm_compute in H; discriminate H ]).

(** X17: a turn whose first line is none of the choices 1, 2 and 5, or
    that finds no line at all, prints and reads and does nothing else:
    it ends (by a return or by [EOFError]) with the manager, the files
    and the clock as they were. *)
Theorem reading_turns_are_quiet (lower : str -> str) (int : str -> option Z)
    (s : Shell) :
  head (stdin s) <> Some (u "1") ->
  head (stdin s) <> Some (u "2") ->
  head (stdin s) <> Some (u "5") ->
  ends_at quiet (iteration lower int) s.
Proof.
  intros H1 H2 H5. unfold iteration.
  apply (ends_at_bind _ quiet_trans);
    [apply (ends_at_print_menu _ quiet_trans), (fun s s' H => H) |].
  intros [] s1 Hmenu. rewrite print_menu_run in Hmenu. injection Hmenu as <-.
  apply (ends_at_bind _ quiet_trans); [apply ends_at_input, (fun s s' H => H) |].
  intros choice s2 Hchoice. unfold input in Hchoice. cbn [stdin] in Hchoice.
  destruct (stdin s) as [| line rest]; [done |]. injection Hchoice as -> <-.
  cbn [head] in *.
  repeat case_bool_decide; subst; try done;
    steps quiet_refl quiet_trans (fun s s' (H : quiet s s') => H) ltac:(fail).
Qed.

(** X18: the choice 6 ends the loop: the menu and the farewell are
    printed, the manager and the files stay, and the lines after the
    choice are left unread. *)
Theorem exit_choice (lower : str -> str) (int : str -> option Z)
    (fuel : nat) (s : Shell) (rest : list str) :
  stdin s = u "6" :: rest ->
  loop lower int (S fuel) s =
    Ret tt {| library := library s;
              world := print_lines (menu_lines ++ [u "Goodbye!"]) (world s);
              stdin := rest;
              prompts := prompts s ++
                [(length (events (world s) ++ map Print menu_lines),
                  10 :: u "Enter your choice (1-6): ")] |}.
Proof.
  intros Hin. cbn [loop].
  destruct (print_lines_spec menu_lines (world s)) as (<- & _ & _).
  erewrite bind_ret; [| read_choice Hin; repeat other_choice; reflexivity].
  reflexivity.
Qed.

(** X19: a line that is none of the six choices costs one turn: the
    menu and the invalid-choice notice are printed, nothing else
    changes, and the loop goes on with the next line. *)
Theorem invalid_choice (lower : str -> str) (int : str -> option Z)
    (fuel : nat) (s : Shell) (choice : str) (rest : list str) :
  stdin s = choice :: rest ->
  choice ∉ [u "1"; u "2"; u "3"; u "4"; u "5"; u "6"] ->
  loop lower int (S fuel) s =
    loop lower int fuel
      {| library := library s;
         world := print_lines (menu_lines ++ [u "Invalid choice. Please try again."])
                              (world s);
         stdin := rest;
         prompts := prompts s ++
           [(length (events (world s) ++ map Print menu_lines),
             10 :: u "Enter your choice (1-6): ")] |}.
Proof.
  intros Hin Hnot. cbn [loop].
  destruct (print_lines_spec menu_lines (world s)) as (<- & _ & _).
  erewrite bind_ret;
    [| read_choice Hin;
       repeat (rewrite bool_decide_eq_false_2
                 by (intros ->; apply Hnot; set_solver));
       reflexivity].
  reflexivity.
Qed.

(** The six prompts of the choice 1 up to the year. *)
Ltac read_lines :=
  repeat (rewrite bind_input; cbn [stdin library world prompts]).

(** X20: a year that [int] does not take ends the session with
    [ValueError]: the five lines of the book typed so far are lost, the
    status is never asked for, [add_book] is not called, and the manager
    and the files are as they were before the turn. *)
Theorem year_not_a_number (lower : str -> str) (int : str -> option Z)
    (fuel : nat) (s : Shell) (t a i g y : str) (rest : list str) :
  stdin s = u "1" :: t :: a :: i :: g :: y :: rest ->
  int y = None ->
  exists s',
    loop lower int (S fuel) s = Exc ValueError s' /\
    library s' = library s /\
    world s' = print_lines menu_lines (world s) /\
    stdin s' = rest /\
    (prompts s').*2 =
      (prompts s).*2 ++
      [10 :: u "Enter your choice (1-6): "; u "Enter book title: ";
       u "Enter author: "; u "Enter ISBN: "; u "Enter genre: ";
       u "Enter year published: "].
Proof.
  intros Hin Hy. eexists. split.
  - cbn [loop]. apply bind_exc. read_choice Hin.
    rewrite bool_decide_eq_true_2 by done. read_lines.
    apply bind_exc. unfold to_int. rewrite Hy. reflexivity.
  - cbn [library world stdin prompts]. repeat split.
    rewrite !fmap_app. cbn. by rewrite <- !app_assoc.
Qed.

(** X21: the choice 1 followed by six lines, the fifth of which [int]
    takes as [z], calls [add_book] with the lines in the order typed
    and [z] as the year, in the world in which the menu is printed. *)
Theorem add_choice (lower : str -> str) (int : str -> option Z)
    (s : Shell) (t a i g y st : str) (z : Z) (rest : list str) :
  stdin s = u "1" :: t :: a :: i :: g :: y :: st :: rest ->
  int y = Some z ->
  exists s',
    iteration lower int s = Ret true s' /\
    (library s', world s') =
      add_book t a i g z st (library s) (print_lines menu_lines (world s)) /\
    stdin s' = rest /\
    (prompts s').*2 =
      (prompts s).*2 ++
      [10 :: u "Enter your choice (1-6): "; u "Enter book title: ";
       u "Enter author: "; u "Enter ISBN: "; u "Enter genre: ";
       u "Enter year published: "; u "Enter status (read/reading/to_read): "].
Proof.
  intros Hin Hy. eexists. split.
  - read_choice Hin. rewrite bool_decide_eq_true_2 by done. read_lines.
    erewrite bind_ret; [| unfold to_int; rewrite Hy; reflexivity].
    read_lines. rewrite bind_call. reflexivity.
  - cbn [library world stdin prompts]. split; [by destruct (add_book _ _ _ _ _ _ _ _) |].
    split; [done |]. rewrite !fmap_app. cbn. by rewrite <- !app_assoc.
Qed.

(** X22: the choice 3 followed by a query prints, after the menu, the
    heading and one line for each record that [search_books] returns,
    in their order, or the no-results line when it returns none; the
    manager stays. *)
Theorem search_choice (lower : str -> str) (int : str -> option Z)
    (s : Shell) (query : str) (rest : list str) :
  stdin s = u "3" :: query :: rest ->
  exists s',
    iteration lower int s = Ret true s' /\
    library s' = library s /\ stdin s' = rest /\
    world s' =
      print_lines
        (menu_lines ++
         match (search_books lower query (library s) (world s)).1.1 with
         | [] => [u "No books found matching your search."]
         | results => (10 :: u "Search Results:") :: map result_line results
         end)
        (world s).
Proof.
  intros Hin. cbn [search_books fst].
  destruct (List.filter _ _) as [| book results] eqn:Hfound; eexists; (split; [
    read_choice Hin; repeat other_choice; rewrite bool_decide_eq_true_2 by done;
    read_lines; unfold bind at 1 2, search at 1;
    cbn [search_books library world stdin prompts]; rewrite Hfound |]).
  - reflexivity.
  - cbn [library world stdin]. by rewrite print_lines_app.
  - rewrite bind_say, say_results_run. reflexivity.
  - cbn [library world stdin]. by rewrite print_lines_app.
Qed.

(** X23: the choices 2, 5 and 4 call [remove_book], [update_book_status]
    and [list_books] with the lines typed after them, in the world in
    which the menu is printed. *)
Theorem other_choices (lower : str -> str) (int : str -> option Z) (s : Shell) :
  (forall i rest,
     stdin s = u "2" :: i :: rest ->
     exists s',
       iteration lower int s = Ret true s' /\ stdin s' = rest /\
       (library s', world s') =
         remove_book i (library s) (print_lines menu_lines (world s))) /\
  (forall i st rest,
     stdin s = u "5" :: i :: st :: rest ->
     exists s',
       iteration lower int s = Ret true s' /\ stdin s' = rest /\
       (library s', world s') =
         update_book_status i st (library s) (print_lines menu_lines (world s))) /\
  (forall rest,
     stdin s = u "4" :: rest ->
     exists s',
       iteration lower int s = Ret true s' /\ stdin s' = rest /\
       (library s', world s') =
         list_books (library s) (print_lines menu_lines (world s))).
Proof.
  split; [| split].
  - intros i rest Hin. eexists. split.
    + read_choice Hin. repeat other_choice. rewrite bool_decide_eq_true_2 by done.
      read_lines. rewrite bind_call. reflexivity.
    + cbn [library world stdin]. by destruct (remove_book _ _ _).
  - intros i st rest Hin. eexists. split.
    + read_choice Hin. repeat other_choice. rewrite bool_decide_eq_true_2 by done.
      read_lines. rewrite bind_call. reflexivity.
    + cbn [library world stdin]. by destruct (update_book_status _ _ _ _).
  - intros rest Hin. eexists. split.
    + read_choice Hin. repeat other_choice. rewrite bool_decide_eq_true_2 by done.
      rewrite bind_call. reflexivity.
    + cbn [library world stdin]. by destruct (list_books _ _).
Qed.



(** ** The script *)

(** X25: when the script comes to its end it has printed, last of all,
    that the sample book was added, and the second manager holds a
    record with the isbn of the sample book and is backed by
    [library_data.json]; the state of the shell is the one that [main]
    left, but for the lines printed. *)
Theorem script_adds_sample (lower : str -> str) (int : str -> option Z)
    (w : World) (lines : list str) (m : LibraryManager) (s : Shell) :
  script lower int w lines = Done (Ret m s) ->
  (exists b, b ∈ books m /\ isbn b = u "9780743273565") /\
  data_file m = library_data_json /\
  last (events (world s)) = Some (Print (u "Added test book: The Great Gatsby")) /\
  exists s0,
    main lower int w lines = Done (Ret tt s0) /\
    library s = library s0 /\ stdin s = stdin s0 /\ prompts s = prompts s0.
Proof.
  unfold script.
  destruct (main lower int w lines) as [[[] s0 | e s0 |] | e | |]; try done.
  destruct (init library_data_json (world s0)) as [[m1 w1] | e | |] eqn:Hinit;
    try done.
  apply load_library_keeps in Hinit as (Hpath & _ & _).
  pose proof (add_book_has_isbn (u "The Great Gatsby") (u "F. Scott Fitzgerald")
                (u "9780743273565") (u "Fiction") 1925 (u "to_read") m1 w1) as Hhas.
  assert (data_file (add_book (u "The Great Gatsby") (u "F. Scott Fitzgerald")
                (u "9780743273565") (u "Fiction") 1925 (u "to_read") m1 w1).1 =
          data_file m1) as Hsame.
  { by destruct (untouched_or_saved_add (u "The Great Gatsby") (u "F. Scott Fitzgerald")
                (u "9780743273565") (u "Fiction") 1925 (u "to_read") m1 w1)
      as [[-> _] | [-> _]]. }
  destruct (add_book _ _ _ _ _ _ m1 w1) as [m2 w2]. cbn [fst] in *.
  intros [= <- <-]. split; [done |]. split; [by rewrite Hsame |].
  split; [cbn [world print events]; apply last_snoc |]. by exists s0.
Qed.

(** ** What [load_library] takes and what it refuses *)

Lemma Book_of_finishes (item : json) : Book_of item <> Unfinished.
Proof.
  destruct item; try done. cbn. unfold Book_of_kwargs.
  destruct (kwargs_ok d); [| done]. by repeat case_match.
Qed.

Lemma Books_of_raises (items : list json) (item : json) :
  item ∈ items ->
  (forall d, item = JObj d -> kwargs_ok d = false) ->
  Books_of items = Raised TypeError.
Proof.
  intros Hin Hbad.
  assert (Book_of item = Raised TypeError) as Hitem.
  { destruct item; try done. cbn. unfold Book_of_kwargs. by rewrite (Hbad d). }
  induction Hin as [item rest | item other rest Hin IH]; cbn [Books_of].
  - by rewrite Hitem.
  - specialize (IH Hbad Hitem). rewrite IH.
    pose proof (Book_of_finishes other).
    by destruct (Book_of other) as [b | [] | |].
Qed.

Lemma get_str_Some (k : str) (d : list (str * json)) (s : str) :
  get_str k d = Some s -> dict_get k d = Some (JStr s).
Proof. unfold get_str. intros H. by repeat case_match; simplify_eq. Qed.

Lemma get_int_Some (k : str) (d : list (str * json)) (z : Z) :
  get_int k d = Some z -> dict_get k d = Some (JInt z).
Proof. unfold get_int. intros H. by repeat case_match; simplify_eq. Qed.

Lemma Book_of_Done (item : json) (b : Book) :
  Book_of item = Done b -> exists d, item = JObj d /\ holds d b.
Proof.
  destruct item; try done. cbn. unfold Book_of_kwargs. intros H. exists d. split; [done |]. unfold holds.
  destruct (kwargs_ok d); [| done]. split; [done |].
  destruct (get_str (u "title") d) eqn:E1; [| done].
  destruct (get_str (u "author") d) eqn:E2; [| done].
  destruct (get_str (u "isbn") d) eqn:E3; [| done].
  destruct (get_str (u "genre") d) eqn:E4; [| done].
  destruct (get_int (u "year_published") d) eqn:E5; [| done].
  destruct (get_str (u "date_added") d) eqn:E6; [| done].
  destruct (get_str (u "status") d) eqn:E7; [| done].
  injection H as <-. cbn [title author isbn genre year_published date_added status].
  repeat split; by (apply get_str_Some || apply get_int_Some).
Qed.

Lemma Books_of_Done (items : list json) (bs : list Book) :
  Books_of items = Done bs ->
  Forall2 (fun item b => exists d, item = JObj d /\ holds d b) items bs.
Proof.
  revert bs. induction items as [| item items IH]; intros bs; cbn [Books_of].
  - by intros [= <-].
  - destruct (Book_of item) as [b | | |] eqn:Hitem; try done.
    + destruct (Books_of items) as [bs' | | |]; try done. intros [= <-].
      constructor; [by apply Book_of_Done | by apply IH].
    + by destruct (Books_of items).
Qed.

(** X26: [load_library] raises [TypeError], which it does not catch,
    when the file holds JSON that is a number, a boolean, [null], an
    object with a key, a string with a character, or an array one of
    whose elements is not an object with exactly the seven field names
    as keys. *)
Theorem load_library_raises (m : LibraryManager) (w : World)
    (text : str) (data : json) (rest : str) :
  fs w !! data_file m = Some text ->
  loads text = Parsed data rest ->
  match data with
  | JArr items =>
      exists item, item ∈ items /\ forall d, item = JObj d -> kwargs_ok d = false
  | JObj d => d <> []
  | JStr s => s <> []
  | _ => True
  end ->
  load_library m w = Raised TypeError.
Proof.
  intros Hfile Hloads Hdata. unfold load_library. rewrite Hfile, Hloads.
  destruct data as [| | | | s | items | d]; try done; cbn [iter].
  - destruct s as [| c s]; [done |]. reflexivity.
  - destruct Hdata as (item & Hin & Hbad). by rewrite (Books_of_raises items item).
  - destruct d as [| kv d]; [done |]. reflexivity.
Qed.

(** X27: when [load_library] returns for a file that holds JSON, the
    world is untouched, and the JSON is an array of objects (or an
    empty string or object), each with the seven field names and no
    other key, and the catalog has one record for each, in order, with
    the fields that the object holds. *)
Theorem load_library_accepts (m m' : LibraryManager) (w w' : World)
    (text : str) (data : json) (rest : str) :
  fs w !! data_file m = Some text ->
  loads text = Parsed data rest ->
  load_library m w = Done (m', w') ->
  w' = w /\ data_file m' = data_file m /\
  exists items,
    iter data = Some items /\
    Forall2 (fun item b => exists d, item = JObj d /\ holds d b) items (books m').
Proof.
  intros Hfile Hloads. unfold load_library. rewrite Hfile, Hloads.
  destruct (iter data) as [items |]; [| done].
  destruct (Books_of items) as [bs | | |] eqn:Hbooks; try done.
  intros [= <- <-]. split; [done |]. split; [done |].
  exists items. split; [done |]. by apply Books_of_Done.
Qed.

(** ** The further properties at concrete inputs *)

Lemma remove_book_after_add_witness :
  Forall (fun b => isbn b <> u "999") (books two_books) /\
  (remove_book (u "999")
     (add_book (u "Dune") (u "Frank Herbert") (u "999") (u "SF") 1965 (u "reading")
               two_books empty_world).1 empty_world).1 = two_books.
Proof.
  split; [exact no_999_in_two_books |].
  exact (remove_book_after_add (u "Dune") (u "Frank Herbert") (u "999") (u "SF") 1965
           (u "reading") two_books empty_world empty_world no_999_in_two_books).
Defined.

Lemma remove_book_clears_isbn_witness :
  unique_isbn (books two_books) /\
  Forall (fun b => isbn b <> u "111")
         (books (remove_book (u "111") two_books empty_world).1).
Proof.
  split; [exact unique_isbn_two_books |].
  exact (remove_book_clears_isbn (u "111") two_books empty_world unique_isbn_two_books).
Defined.

Lemma added_book_is_found_witness :
  Forall (fun b => isbn b <> u "999") (books two_books) /\
  exists b,
    b ∈ (search_books ascii_lower (u "Frank Herbert")
           (add_book (u "Dune") (u "Frank Herbert") (u "999") (u "SF") 1965
                     (u "reading") two_books empty_world).1 empty_world).1.1 /\
    title b = u "Dune" /\ author b = u "Frank Herbert" /\ isbn b = u "999" /\
    genre b = u "SF".
Proof.
  split; [exact no_999_in_two_books |].
  exact (added_book_is_found ascii_lower (u "Dune") (u "Frank Herbert") (u "999")
           (u "SF") 1965 (u "reading") two_books empty_world empty_world
           (u "Frank Herbert") no_999_in_two_books (or_intror (or_introl eq_refl))).
Defined.

Lemma remove_changes_three_books :
  (remove_book (u "333") three_books empty_world).1 <> three_books.
Proof.
  intros H. apply (f_equal (fun m => length (books m))) in H.
  vm_compute in H. discriminate H.
Qed.

Lemma changes_survive_restart_witness :
  Forall wf_book (books three_books) /\
  (remove_book (u "333") three_books empty_world).1 <> three_books /\
  load_library (remove_book (u "333") three_books empty_world).1
               (remove_book (u "333") three_books empty_world).2 =
    Done (remove_book (u "333") three_books empty_world).
Proof.
  split; [exact wf_three_books |]. split; [exact remove_changes_three_books |].
  exact (proj1 (proj2 (changes_survive_restart three_books empty_world wf_three_books))
           (u "333") remove_changes_three_books).
Defined.

Lemma catalog_text_injective_witness :
  Forall wf_book (books three_books) /\
  catalog_text (books three_books) = catalog_text [orwell; escaped_book; gatsby] /\
  books three_books = [orwell; escaped_book; gatsby].
Proof.
  split; [exact wf_three_books |]. split; [reflexivity |].
  exact (catalog_text_injective (books three_books) [orwell; escaped_book; gatsby]
           wf_three_books wf_three_books eq_refl).
Defined.

Lemma load_truncated :
  load_library fresh_manager (world_with truncated_text) =
    Done (fresh_manager,
          print (u "Error: Invalid JSON file. Starting with empty library.")
                (world_with truncated_text)).
Proof. by vm_compute. Qed.

Lemma load_library_reads_only_witness :
  load_library fresh_manager (world_with truncated_text) =
    Done (fresh_manager,
          print (u "Error: Invalid JSON file. Starting with empty library.")
                (world_with truncated_text)) /\
  fs (print (u "Error: Invalid JSON file. Starting with empty library.")
            (world_with truncated_text)) =
    fs (world_with truncated_text).
Proof.
  split; [exact load_truncated |].
  exact (proj1 (proj2 (load_library_reads_only _ _ _ _ load_truncated))).
Defined.

Lemma list_books_shows_record_witness :
  books two_books !! 1%nat = Some gatsby /\
  exists before after,
    events (list_books two_books empty_world).2 =
      before ++ map Print (entry_lines 2 gatsby) ++ after /\
    length before = (length (events empty_world) + 2 + 5 * 1)%nat.
Proof.
  split; [reflexivity |].
  exact (list_books_shows_record two_books empty_world 1 gatsby eq_refl).
Defined.

Lemma init_empty_world :
  init library_data_json empty_world = Done (fresh_manager, empty_world).
Proof. reflexivity. Qed.

Lemma main_session :
  main ascii_lower ascii_int empty_world session = Done (Ret tt session_end).
Proof. by vm_compute. Qed.

Lemma ends_in_session_end :
  ends_in (main ascii_lower ascii_int empty_world session) session_end.
Proof. left. exists tt. exact main_session. Qed.

Lemma data_file_kept (m : LibraryManager) (w : World) (r : LibraryManager * World) :
  untouched_or_saved m w r -> data_file r.1 = data_file m.
Proof. by intros [[-> _] | [-> _]]. Qed.

Lemma session_keeps_witness :
  ends_in (main ascii_lower ascii_int empty_world session) session_end /\
  data_file (library session_end) = library_data_json.
Proof.
  split; [exact ends_in_session_end |].
  exact (proj2 (session_keeps ascii_lower ascii_int
                  (fun m _ => data_file m = library_data_json)
                  (fun t a i g y st m w H =>
                     eq_trans (data_file_kept m w _ (untouched_or_saved_add t a i g y st m w)) H)
                  (fun i m w H =>
                     eq_trans (data_file_kept m w _ (untouched_or_saved_remove i m w)) H)
                  (fun i st m w H =>
                     eq_trans (data_file_kept m w _ (untouched_or_saved_update i st m w)) H))
           empty_world session fresh_manager empty_world session_end
           init_empty_world eq_refl ends_in_session_end).
Defined.

Lemma main_keeps_unique_isbn_witness :
  init library_data_json empty_world = Done (fresh_manager, empty_world) /\
  unique_isbn (books fresh_manager) /\
  ends_in (main ascii_lower ascii_int empty_world session) session_end /\
  unique_isbn (books (library session_end)).
Proof.
  split; [exact init_empty_world |]. split; [apply NoDup_nil_2 |].
  split; [exact ends_in_session_end |].
  exact (main_keeps_unique_isbn ascii_lower ascii_int empty_world session
           fresh_manager empty_world session_end init_empty_world
           (NoDup_nil_2 : unique_isbn (books fresh_manager)) ends_in_session_end).
Defined.

Lemma main_saves_changes_witness :
  init library_data_json empty_world = Done (fresh_manager, empty_world) /\
  ends_in (main ascii_lower ascii_int empty_world session) session_end /\
  ((library session_end = fresh_manager /\
    fs (world session_end) = fs empty_world) \/
   in_sync (library session_end) (world session_end)).
Proof.
  split; [exact init_empty_world |]. split; [exact ends_in_session_end |].
  exact (main_saves_changes ascii_lower ascii_int empty_world session
           fresh_manager empty_world session_end init_empty_world ends_in_session_end).
Defined.

Lemma main_touches_one_file_witness :
  ends_in (main ascii_lower ascii_int empty_world session) session_end /\
  data_file (library session_end) = library_data_json /\
  fs (world session_end) !! u "notes.txt" = fs empty_world !! u "notes.txt".
Proof.
  split; [exact ends_in_session_end |].
  destruct (main_touches_one_file ascii_lower ascii_int empty_world session
              session_end ends_in_session_end) as [Hpath Hother].
  split; [exact Hpath |]. apply Hother. discriminate.
Defined.

Lemma reading_turns_are_quiet_witness :
  head (stdin (shell_of two_books [u "4"])) <> Some (u "1") /\
  head (stdin (shell_of two_books [u "4"])) <> Some (u "2") /\
  head (stdin (shell_of two_books [u "4"])) <> Some (u "5") /\
  ends_at quiet (iteration ascii_lower ascii_int) (shell_of two_books [u "4"]).
Proof.
  assert (forall c, c <> u "4" ->
            head (stdin (shell_of two_books [u "4"])) <> Some c) as Hother
    by (intros c Hc [= <-]; by apply Hc).
  split; [apply Hother; discriminate |]. split; [apply Hother; discriminate |].
  split; [apply Hother; discriminate |].
  apply (reading_turns_are_quiet ascii_lower ascii_int (shell_of two_books [u "4"]));
    apply Hother; discriminate.
Defined.

Lemma exit_choice_witness :
  stdin (shell_of two_books [u "6"; u "never read"]) = u "6" :: [u "never read"] /\
  loop ascii_lower ascii_int 1 (shell_of two_books [u "6"; u "never read"]) =
    Ret tt {| library := two_books;
              world := print_lines (menu_lines ++ [u "Goodbye!"]) empty_world;
              stdin := [u "never read"];
              prompts := [(7%nat, 10 :: u "Enter your choice (1-6): ")] |}.
Proof.
  split; [reflexivity |].
  exact (exit_choice ascii_lower ascii_int 0 (shell_of two_books [u "6"; u "never read"])
           [u "never read"] eq_refl).
Defined.

Lemma seven_is_no_choice : u "7" ∉ [u "1"; u "2"; u "3"; u "4"; u "5"; u "6"].
Proof.
  intros H. repeat (apply elem_of_cons in H as [H | H]; [discriminate H |]).
  by apply elem_of_nil in H.
Qed.

Lemma invalid_choice_witness :
  stdin (shell_of two_books [u "7"; u "6"]) = u "7" :: [u "6"] /\
  (u "7" ∉ [u "1"; u "2"; u "3"; u "4"; u "5"; u "6"]) /\
  loop ascii_lower ascii_int 2 (shell_of two_books [u "7"; u "6"]) =
    loop ascii_lower ascii_int 1
      {| library := two_books;
         world := print_lines (menu_lines ++ [u "Invalid choice. Please try again."])
                              empty_world;
         stdin := [u "6"];
         prompts := [(7%nat, 10 :: u "Enter your choice (1-6): ")] |}.
Proof.
  split; [reflexivity |]. split; [exact seven_is_no_choice |].
  exact (invalid_choice ascii_lower ascii_int 1 (shell_of two_books [u "7"; u "6"])
           (u "7") [u "6"] eq_refl seven_is_no_choice).
Defined.

Lemma year_not_a_number_witness :
  ascii_int (u "MCMLXV") = None /\
  exists s',
    loop ascii_lower ascii_int 1
         (shell_of two_books
            [u "1"; u "Dune"; u "Frank Herbert"; u "999"; u "SF"; u "MCMLXV";
             u "reading"; u "6"]) = Exc ValueError s' /\
    library s' = two_books /\
    stdin s' = [u "reading"; u "6"].
Proof.
  split; [reflexivity |].
  destruct (year_not_a_number ascii_lower ascii_int 0
              (shell_of two_books
                 [u "1"; u "Dune"; u "Frank Herbert"; u "999"; u "SF"; u "MCMLXV";
                  u "reading"; u "6"])
              (u "Dune") (u "Frank Herbert") (u "999") (u "SF") (u "MCMLXV")
              [u "reading"; u "6"] eq_refl eq_refl)
    as (s' & Hrun & Hm & _ & Hin & _).
  exists s'. split; [exact Hrun |]. split; [exact Hm | exact Hin].
Defined.

Lemma add_choice_witness :
  ascii_int (u "1965") = Some 1965%Z /\
  exists s',
    iteration ascii_lower ascii_int
      (shell_of two_books
         [u "1"; u "Dune"; u "Frank Herbert"; u "999"; u "SF"; u "1965";
          u "reading"; u "6"]) = Ret true s' /\
    (library s', world s') =
      add_book (u "Dune") (u "Frank Herbert") (u "999") (u "SF") 1965 (u "reading")
               two_books (print_lines menu_lines empty_world) /\
    stdin s' = [u "6"].
Proof.
  split; [reflexivity |].
  destruct (add_choice ascii_lower ascii_int
              (shell_of two_books
                 [u "1"; u "Dune"; u "Frank Herbert"; u "999"; u "SF"; u "1965";
                  u "reading"; u "6"])
              (u "Dune") (u "Frank Herbert") (u "999") (u "SF") (u "1965")
              (u "reading") 1965 [u "6"] eq_refl eq_refl)
    as (s' & Hrun & Hcall & Hin & _).
  exists s'. split; [exact Hrun |]. split; [exact Hcall | exact Hin].
Defined.

Lemma search_choice_witness :
  exists s',
    iteration ascii_lower ascii_int (shell_of two_books [u "3"; u "ORWELL"; u "6"]) =
      Ret true s' /\
    library s' = two_books /\ stdin s' = [u "6"] /\
    world s' =
      print_lines
        (menu_lines ++
         [10 :: u "Search Results:"; u "- 1984 by George Orwell (ISBN: 111)"])
        empty_world.
Proof.
  destruct (search_choice ascii_lower ascii_int
              (shell_of two_books [u "3"; u "ORWELL"; u "6"]) (u "ORWELL") [u "6"]
              eq_refl)
    as (s' & Hrun & Hm & Hin & Hw).
  exists s'. split; [exact Hrun |]. split; [exact Hm |]. split; [exact Hin | exact Hw].
Defined.

Lemma other_choices_witness :
  exists s',
    iteration ascii_lower ascii_int (shell_of two_books [u "2"; u "111"; u "6"]) =
      Ret true s' /\
    stdin s' = [u "6"] /\
    (library s', world s') =
      remove_book (u "111") two_books (print_lines menu_lines empty_world).
Proof.
  exact (proj1 (other_choices ascii_lower ascii_int
                  (shell_of two_books [u "2"; u "111"; u "6"]))
           (u "111") [u "6"] eq_refl).
Defined.


Lemma script_adds_sample_witness :
  exists m s,
    script ascii_lower ascii_int empty_world session = Done (Ret m s) /\
    (exists b, b ∈ books m /\ isbn b = u "9780743273565") /\
    last (events (world s)) = Some (Print (u "Added test book: The Great Gatsby")).
Proof.
  destruct (script ascii_lower ascii_int empty_world session)
    as [[m s | e s |] | e | |] eqn:Hrun; try (by vm_compute in Hrun).
  exists m, s. split; [reflexivity |].
  destruct (script_adds_sample ascii_lower ascii_int empty_world session m s Hrun)
    as (Hhas & _ & Hlast & _).
  split; [exact Hhas | exact Hlast].
Defined.

Lemma loads_missing_fields :
  loads missing_fields_text = Parsed (JArr [JObj [(u "title", JStr (u "Dune"))]]) [].
Proof. by vm_compute. Qed.

Lemma load_library_raises_witness :
  fs (world_with missing_fields_text) !! data_file fresh_manager =
    Some missing_fields_text /\
  loads missing_fields_text = Parsed (JArr [JObj [(u "title", JStr (u "Dune"))]]) [] /\
  load_library fresh_manager (world_with missing_fields_text) = Raised TypeError.
Proof.
  assert (fs (world_with missing_fields_text) !! data_file fresh_manager =
          Some missing_fields_text) as Hfile by (by vm_compute).
  split; [exact Hfile |]. split; [exact loads_missing_fields |].
  apply (load_library_raises fresh_manager (world_with missing_fields_text)
           missing_fields_text _ [] Hfile loads_missing_fields).
  exists (JObj [(u "title", JStr (u "Dune"))]). split; [apply list_elem_of_here |].
  intros d [= <-]. reflexivity.
Defined.

Lemma load_library_accepts_witness :
  Forall wf_book (books three_books) /\
  load_library three_books (save_library three_books empty_world) =
    Done (three_books, save_library three_books empty_world) /\
  exists items,
    iter (catalog_value (books three_books)) = Some items /\
    Forall2 (fun item b => exists d, item = JObj d /\ holds d b) items
            (books three_books).
Proof.
  split; [exact wf_three_books |].
  split; [exact (load_after_save three_books empty_world wf_three_books) |].
  exact (proj2 (proj2 (load_library_accepts three_books three_books
                         (save_library three_books empty_world)
                         (save_library three_books empty_world)
                         (catalog_text (books three_books))
                         (catalog_value (books three_books)) []
                         (save_library_file three_books empty_world)
                         (loads_catalog_text (books three_books) wf_three_books)
                         (load_after_save three_books empty_world wf_three_books)))).
Defined.
